(** * donkeypart_bluetooth_game_controller: part.py

    A shallow embedding of [BluetoothDevice] and [BluetoothGameController]
    (src/donkeypart_bluetooth_game_controller/part.py) and the properties
    of the controller's input-to-control-state mapping.

    Python objects are mutated in place; here the controller object and the
    part of the environment it talks to (the evdev enumeration and the
    event queues of the devices) are threaded through a state monad whose
    results may be a value, a raised exception, or a call that is still
    waiting when the recorded environment trace ends. *)

From Stdlib Require Import ZArith String Ascii List Lia.
From Stdlib Require Import Floats.PrimFloat Floats.SpecFloat Floats.FloatOps.
From Stdlib Require Import Floats.FloatAxioms.
From stdpp Require Import base option list gmap strings.

Set Warnings "-inexact-float".

Local Open Scope Z_scope.
Local Open Scope string_scope.

(** ** Python values and exceptions *)

(** The values an event carries: [event.value] is an [int], a scaled axis
    value is a [float], and the reconnect path returns [None]. Floats are
    IEEE 754 binary64, as CPython's are. *)
Inductive pyval :=
  | PyNone
  | PyInt (z : Z)
  | PyFloat (f : float).

Inductive exn :=
  | OSError
  | ValueError
  | ZeroDivisionError
  | OverflowError
  | AttributeError
  | TypeError
  | StopIteration.

(** Outcome of a call: a value, an exception, or [Blocked] when the call is
    still waiting on the environment (a blocking read with nothing queued,
    the retry loop of [load_device] with no enumeration left). *)
Inductive result (A : Type) :=
  | Ok (a : A)
  | Err (e : exn)
  | Blocked.
Arguments Ok {A} a.
Arguments Err {A} e.
Arguments Blocked {A}.

(** The double nearest to [z], ties to even. *)
Definition Z2F (z : Z) : float := SF2Prim (binary_normalize prec emax z 0 false).

(** [float(z)]: round to nearest even; a result beyond the largest finite
    double raises OverflowError. *)
Definition py_float (z : Z) : result float :=
  match binary_normalize prec emax z 0 false with
  | S754_infinity _ => Err OverflowError
  | _ => Ok (Z2F z)
  end.

(** Operand conversion of the float arithmetic operators. *)
Definition to_float (v : pyval) : result float :=
  match v with
  | PyNone => Err TypeError
  | PyInt z => py_float z
  | PyFloat f => Ok f
  end.

(** [val == 1] *)
Definition py_eq_one (v : pyval) : bool :=
  match v with
  | PyNone => false
  | PyInt z => (z =? 1)%Z
  | PyFloat f => PrimFloat.eqb f 1%float
  end.

(** ** itertools.cycle over a list *)

Record cycle (A : Type) := { saved : list A; pos : nat }.
Arguments saved {A} c.
Arguments pos {A} c.

Definition mk_cycle {A} (l : list A) : cycle A := {| saved := l; pos := 0%nat |}.

(** [next(c)]: the element at the cursor, and the cursor moved on, wrapping
    at the end; [None] stands for StopIteration (empty input). *)
Definition cycle_next {A} (c : cycle A) : option (A * cycle A) :=
  match saved c !! pos c with
  | Some x => Some (x, {| saved := saved c; pos := (S (pos c)) mod (length (saved c)) |})
  | None => None
  end.

(** ** evdev: raw events and input devices *)

Record RawEvent := { ev_type : Z; ev_code : Z; ev_value : Z }.

(** [ecodes.EV_ABS] *)
Definition EV_ABS : Z := 3.

(** What one blocking read of a device gives: an event or OSError. *)
Inductive ReadOutcome :=
  | Yield (e : RawEvent)
  | Fail.

(** An opened [evdev.InputDevice]: its name and path, and the outcomes of
    the reads that will be made on it, in order. *)
Record InputDevice := {
  name : string;
  path : string;
  pending : list ReadOutcome
}.

(** The search term: a [str], or the [int] that [__init__] falls back to. *)
Inductive term :=
  | TStr (s : string)
  | TInt (z : Z).

(** ** Configuration (loaded by the yaml collaborator) *)

Record Config := {
  cfg_button_map : gmap Z string;
  cfg_joystick_max_value : option Z;
  cfg_device_search_term : option string
}.

(** ** The controller object *)

Record BluetoothGameController := {
  verbose : bool;
  running : bool;
  state : gmap (option string) pyval;
  angle : pyval;
  throttle : float;
  throttle_scale : float;
  throttle_scale_increment : float;
  y_axis_direction : Z;
  drive_mode_toggle : cycle string;
  drive_mode : string;
  recording_toggle : cycle bool;
  recording : bool;
  config : Config;
  btn_map : gmap Z string;
  joystick_max_value : Z;
  device_search_term : term;
  device : option InputDevice
}.

(** The object together with the environment: [scans] lists what the
    coming calls of [evdev.list_devices()] will find, each device opened. *)
Record Sys := {
  self : BluetoothGameController;
  scans : list (list InputDevice)
}.

Definition M (A : Type) : Type := Sys -> Sys * result A.

#[global] Instance M_ret : MRet M := fun A a s => (s, Ok a).
#[global] Instance M_bind : MBind M := fun A B k m s =>
  match m s with
  | (s', Ok a) => k a s'
  | (s', Err e) => (s', Err e)
  | (s', Blocked) => (s', Blocked)
  end.

Definition raise {A} (e : exn) : M A := fun s => (s, Err e).
Definition block {A} : M A := fun s => (s, Blocked).
Definition lift {A} (r : result A) : M A := fun s => (s, r).
Definition get_self : M BluetoothGameController := fun s => (s, Ok (self s)).
Definition modify_self (f : BluetoothGameController -> BluetoothGameController) : M unit :=
  fun s => ({| self := f (self s); scans := scans s |}, Ok tt).

(** Attribute assignment, one setter per attribute that is ever assigned
    after construction. *)
Definition set_running (v : bool) (c : BluetoothGameController) :=
  {| verbose := verbose c; running := v; state := state c; angle := angle c;
     throttle := throttle c; throttle_scale := throttle_scale c;
     throttle_scale_increment := throttle_scale_increment c;
     y_axis_direction := y_axis_direction c;
     drive_mode_toggle := drive_mode_toggle c; drive_mode := drive_mode c;
     recording_toggle := recording_toggle c; recording := recording c;
     config := config c; btn_map := btn_map c;
     joystick_max_value := joystick_max_value c;
     device_search_term := device_search_term c; device := device c |}.

Definition set_state (v : gmap (option string) pyval) (c : BluetoothGameController) :=
  {| verbose := verbose c; running := running c; state := v; angle := angle c;
     throttle := throttle c; throttle_scale := throttle_scale c;
     throttle_scale_increment := throttle_scale_increment c;
     y_axis_direction := y_axis_direction c;
     drive_mode_toggle := drive_mode_toggle c; drive_mode := drive_mode c;
     recording_toggle := recording_toggle c; recording := recording c;
     config := config c; btn_map := btn_map c;
     joystick_max_value := joystick_max_value c;
     device_search_term := device_search_term c; device := device c |}.

Definition set_angle (v : pyval) (c : BluetoothGameController) :=
  {| verbose := verbose c; running := running c; state := state c; angle := v;
     throttle := throttle c; throttle_scale := throttle_scale c;
     throttle_scale_increment := throttle_scale_increment c;
     y_axis_direction := y_axis_direction c;
     drive_mode_toggle := drive_mode_toggle c; drive_mode := drive_mode c;
     recording_toggle := recording_toggle c; recording := recording c;
     config := config c; btn_map := btn_map c;
     joystick_max_value := joystick_max_value c;
     device_search_term := device_search_term c; device := device c |}.

Definition set_throttle (v : float) (c : BluetoothGameController) :=
  {| verbose := verbose c; running := running c; state := state c; angle := angle c;
     throttle := v; throttle_scale := throttle_scale c;
     throttle_scale_increment := throttle_scale_increment c;
     y_axis_direction := y_axis_direction c;
     drive_mode_toggle := drive_mode_toggle c; drive_mode := drive_mode c;
     recording_toggle := recording_toggle c; recording := recording c;
     config := config c; btn_map := btn_map c;
     joystick_max_value := joystick_max_value c;
     device_search_term := device_search_term c; device := device c |}.

Definition set_throttle_scale (v : float) (c : BluetoothGameController) :=
  {| verbose := verbose c; running := running c; state := state c; angle := angle c;
     throttle := throttle c; throttle_scale := v;
     throttle_scale_increment := throttle_scale_increment c;
     y_axis_direction := y_axis_direction c;
     drive_mode_toggle := drive_mode_toggle c; drive_mode := drive_mode c;
     recording_toggle := recording_toggle c; recording := recording c;
     config := config c; btn_map := btn_map c;
     joystick_max_value := joystick_max_value c;
     device_search_term := device_search_term c; device := device c |}.

(** [self.drive_mode = next(self.drive_mode_toggle)]: the iterator moves
    and the attribute is assigned. *)
Definition set_drive_mode (t : cycle string) (v : string) (c : BluetoothGameController) :=
  {| verbose := verbose c; running := running c; state := state c; angle := angle c;
     throttle := throttle c; throttle_scale := throttle_scale c;
     throttle_scale_increment := throttle_scale_increment c;
     y_axis_direction := y_axis_direction c;
     drive_mode_toggle := t; drive_mode := v;
     recording_toggle := recording_toggle c; recording := recording c;
     config := config c; btn_map := btn_map c;
     joystick_max_value := joystick_max_value c;
     device_search_term := device_search_term c; device := device c |}.

(** [self.recording = next(self.recording_toggle)] *)
Definition set_recording (t : cycle bool) (v : bool) (c : BluetoothGameController) :=
  {| verbose := verbose c; running := running c; state := state c; angle := angle c;
     throttle := throttle c; throttle_scale := throttle_scale c;
     throttle_scale_increment := throttle_scale_increment c;
     y_axis_direction := y_axis_direction c;
     drive_mode_toggle := drive_mode_toggle c; drive_mode := drive_mode c;
     recording_toggle := t; recording := v;
     config := config c; btn_map := btn_map c;
     joystick_max_value := joystick_max_value c;
     device_search_term := device_search_term c; device := device c |}.

Definition set_device (v : option InputDevice) (c : BluetoothGameController) :=
  {| verbose := verbose c; running := running c; state := state c; angle := angle c;
     throttle := throttle c; throttle_scale := throttle_scale c;
     throttle_scale_increment := throttle_scale_increment c;
     y_axis_direction := y_axis_direction c;
     drive_mode_toggle := drive_mode_toggle c; drive_mode := drive_mode c;
     recording_toggle := recording_toggle c; recording := recording c;
     config := config c; btn_map := btn_map c;
     joystick_max_value := joystick_max_value c;
     device_search_term := device_search_term c; device := v |}.

(** ** Strings: [str.lower] and [in] *)

(** Device names and search terms are taken as ASCII text; [lower] maps
    the letters A-Z and leaves every other character alone. *)
Definition lower_ascii (c : ascii) : ascii :=
  let n := N_of_ascii c in
  if ((65 <=? n) && (n <=? 90))%N then ascii_of_N (n + 32) else c.

Fixpoint lower (s : string) : string :=
  match s with
  | EmptyString => EmptyString
  | String c s' => String (lower_ascii c) (lower s')
  end.

Fixpoint starts_with (needle hay : string) : bool :=
  match needle, hay with
  | EmptyString, _ => true
  | String _ _, EmptyString => false
  | String a needle', String b hay' => Ascii.eqb a b && starts_with needle' hay'
  end.

(** [needle in hay] on strings: [needle] starts at some position of [hay]. *)
Fixpoint str_in (needle hay : string) : bool :=
  starts_with needle hay ||
  match hay with
  | EmptyString => false
  | String _ hay' => str_in needle hay'
  end.

(** ** BluetoothDevice *)

(** The [for device in all_devices] loop of [find_input_device], appending
    to [likely_devices]. A search term that is not a [str] has no [lower],
    which shows at the first device. *)
Fixpoint collect_likely (search_term : term) (all_devices likely_devices : list InputDevice)
  : result (list InputDevice) :=
  match all_devices with
  | [] => Ok likely_devices
  | device :: rest =>
      match search_term with
      | TInt _ => Err AttributeError
      | TStr s =>
          collect_likely search_term rest
            (if str_in (lower s) (lower (name device))
             then likely_devices ++ [device] else likely_devices)
      end
  end.

(** [find_input_device]: [Some d] is the device returned, [None] is the
    implicit [return None], ValueError is raised on two or more matches. *)
Definition find_input_device (search_term : term) : M (option InputDevice) :=
  fun s =>
    match scans s with
    | [] => (s, Blocked)
    | all_devices :: later =>
        let s' := {| self := self s; scans := later |} in
        match collect_likely search_term all_devices [] with
        | Ok likely_devices =>
            if (length likely_devices =? 1)%nat then (s', Ok (head likely_devices))
            else if (2 <=? length likely_devices)%nat then (s', Err ValueError)
            else (s', Ok None)
        | Err e => (s', Err e)
        | Blocked => (s', Blocked)
        end
    end.

(** The [while device is None] loop of [load_device]; every round uses one
    enumeration, so [fuel] rounds are enough when [fuel] exceeds the number
    of enumerations on the trace. *)
Fixpoint load_device_loop (fuel : nat) (search_term : term) : M InputDevice :=
  match fuel with
  | O => block
  | S fuel' =>
      device ← find_input_device search_term;
      match device with
      | Some d => mret d
      | None => load_device_loop fuel' search_term
      end
  end.

Definition load_device (search_term : term) : M unit :=
  fun s =>
    (d ← load_device_loop (S (length (scans s))) search_term;
     modify_self (set_device (Some d))) s.

(** ** BluetoothGameController *)

#[global] Instance result_ret : MRet result := fun A a => Ok a.
#[global] Instance result_bind : MBind result := fun A B k r =>
  match r with
  | Ok a => k a
  | Err e => Err e
  | Blocked => Blocked
  end.

(** [v / d] with a float divisor: both operands become floats, a zero
    divisor raises ZeroDivisionError. *)
Definition py_truediv (v : pyval) (d : float) : result float :=
  a ← to_float v;
  if (d =? 0)%float then Err ZeroDivisionError else Ok (a / d)%float.

Definition update_angle (val : pyval) : M unit :=
  modify_self (set_angle val).

Definition update_throttle (val : pyval) : M unit :=
  c ← get_self;
  v ← lift (to_float val);
  d ← lift (py_float (y_axis_direction c));
  modify_self (set_throttle (v * throttle_scale c * d)%float).

Definition toggle_recording (val : pyval) : M unit :=
  if py_eq_one val then
    c ← get_self;
    match cycle_next (recording_toggle c) with
    | Some (v, t) => modify_self (set_recording t v)
    | None => raise StopIteration
    end
  else mret tt.

Definition toggle_drive_mode (val : pyval) : M unit :=
  if py_eq_one val then
    c ← get_self;
    match cycle_next (drive_mode_toggle c) with
    | Some (v, t) => modify_self (set_drive_mode t v)
    | None => raise StopIteration
    end
  else mret tt.

Definition increment_throttle_scale (val : pyval) : M unit :=
  if py_eq_one val then
    modify_self (fun c =>
      set_throttle_scale (throttle_scale c + throttle_scale_increment c)%float c)
  else mret tt.

Definition decrement_throttle_scale (val : pyval) : M unit :=
  if py_eq_one val then
    modify_self (fun c =>
      set_throttle_scale (throttle_scale c - throttle_scale_increment c)%float c)
  else mret tt.

(** [self.func_map]: the bound methods never change after construction. *)
Definition func_map : gmap string (pyval -> M unit) :=
  <["LEFT_STICK_X" := update_angle]>
  (<["LEFT_STICK_Y" := update_throttle]>
  (<["B" := toggle_recording]>
  (<["A" := toggle_drive_mode]>
  (<["PAD_UP" := increment_throttle_scale]>
  (<["PAD_DOWN" := decrement_throttle_scale]> ∅))))).

(** [read_loop]: one blocking read of [self.device], translated. The read
    takes the next outcome queued on the device. OSError is caught: the
    device is loaded again and [(None, None)] is returned; every other
    exception leaves the method. *)
Definition read_loop : M (option string * pyval) :=
  c ← get_self;
  match device c with
  | None => raise AttributeError
  | Some dev =>
      match pending dev with
      | [] => block
      | Yield event :: later =>
          modify_self (set_device
            (Some {| name := name dev; path := path dev; pending := later |}));;
          let btn := btn_map c !! ev_code event in
          let val := PyInt (ev_value event) in
          if (ev_type event =? EV_ABS)%Z then
            m ← lift (py_float (joystick_max_value c));
            q ← lift (py_truediv val m);
            mret (btn, PyFloat q)
          else mret (btn, val)
      | Fail :: later =>
          modify_self (set_device
            (Some {| name := name dev; path := path dev; pending := later |}));;
          load_device (device_search_term c);;
          mret (None, PyNone)
      end
  end.

(** The body of [update_state_from_loop] after the read: record the value
    under the button, then run the button's handler if it has one. *)
Definition apply_event (btn : option string) (val : pyval) : M unit :=
  modify_self (fun c => set_state (<[btn := val]> (state c)) c);;
  match btn ≫= (func_map !!.) with
  | Some func => func val
  | None => mret tt
  end.

Definition update_state_from_loop : M unit :=
  '(btn, val) ← read_loop;
  apply_event btn val.

Definition run_threaded : M (pyval * float * string * bool) :=
  c ← get_self;
  mret (angle c, throttle c, drive_mode c, recording c).

Definition run : M (pyval * float * string * bool) :=
  update_state_from_loop;;
  run_threaded.

Definition shutdown : M unit :=
  modify_self (set_running false).

(** [update]: [while True: self.update_state_from_loop()]. The loop has no
    exit; [fuel] bounds the rounds that are run, and the call is still in
    the loop ([Blocked]) when they are used up. *)
Fixpoint update (fuel : nat) : M unit :=
  match fuel with
  | O => block
  | S fuel' => update_state_from_loop;; update fuel'
  end.

(** *** profile *)

(** [sorted] on a list of floats: a stable sort driven by [<]. The values
    sorted are quotients of 1001 by a nonzero difference of two clock
    readings, which are never NaN for finite readings, and on such lists
    every stable sort by [<] gives this list. *)
Fixpoint insert_sorted (x : float) (l : list float) : list float :=
  match l with
  | [] => [x]
  | y :: l' => if (x <? y)%float then x :: y :: l' else y :: insert_sorted x l'
  end.

Definition sorted (l : list float) : list float :=
  foldl (fun acc x => insert_sorted x acc) [] l.

(** The figures of the last [print] of [profile]: the last of the five
    best results and their mean; [None] when there is no result beyond the
    fifth (the index error of [best_5_results[-1]]). *)
Definition report (results : list float) : option (float * float) :=
  let sorted_results := sorted results in
  let best_5_results := drop 5 sorted_results in
  match last best_5_results with
  | Some max =>
      let average :=
        (foldl PrimFloat.add 0 best_5_results
         / Z2F (Z.of_nat (length best_5_results)))%float in
      Some (max, average)
  | None => None
  end.

(** The [while True] loop of [profile]. [now] gives the readings of
    [time.time()] in the order they are taken, [tick] counts those taken so
    far. A round reads one event; the round after which [event_total]
    exceeds 1000 closes a window, and the tenth window leaves the loop. *)
Fixpoint profile_loop (now : nat -> float) (fuel : nat) (event_total : Z)
    (start_time : float) (results : list float) (tick : nat) : M (list float) :=
  match fuel with
  | O => block
  | S fuel' =>
      read_loop;;
      let event_total := event_total + 1 in
      if (1000 <? event_total)%Z then
        let end_time := now tick in
        let seconds_elapsed := (end_time - start_time)%float in
        events_per_second ← lift (py_truediv (PyInt event_total) seconds_elapsed);
        let results := (results ++ [events_per_second])%list in
        let start_time := now (S tick) in
        if (9 <? length results)%nat then mret results
        else profile_loop now fuel' 0 start_time results (S (S tick))
      else profile_loop now fuel' event_total start_time results tick
  end.

(** [profile]: ten windows of reads, then the report. The loop body runs
    10010 times when nothing raises or waits, and never more. *)
Definition profile (now : nat -> float) : M (option (float * float)) :=
  results ← profile_loop now (10 * 1001) 0 (now 0%nat) [] 1;
  mret (report results).

(** [__init__], given the configuration that [_load_config] read. The
    result is the constructed object, or the exception that left the
    constructor; the enumerations used by [load_device] are taken off the
    environment. *)
Definition init (event_input_device : option InputDevice) (cfg : Config)
    (search_term : option string) (verb : bool)
    (env : list (list InputDevice))
  : list (list InputDevice) * result BluetoothGameController :=
  match cycle_next (mk_cycle ["user"; "local_angle"; "local"]),
        cycle_next (mk_cycle [true; false]) with
  | Some (mode, mode_toggle), Some (rec, rec_toggle) =>
      let cfg_term :=
        match cfg_device_search_term cfg with
        | Some s => TStr s
        | None => TInt 1280
        end in
      let c :=
        {| verbose := verb; running := false; state := ∅;
           angle := PyFloat 0; throttle := 0;
           throttle_scale := 1; throttle_scale_increment := 0.05;
           y_axis_direction := -1;
           drive_mode_toggle := mode_toggle; drive_mode := mode;
           recording_toggle := rec_toggle; recording := rec;
           config := cfg; btn_map := cfg_button_map cfg;
           joystick_max_value := default 1280 (cfg_joystick_max_value cfg);
           device_search_term :=
             match search_term with
             | Some EmptyString | None => cfg_term
             | Some s => TStr s
             end;
           device := None |} in
      match event_input_device with
      | None =>
          match load_device (device_search_term c) {| self := c; scans := env |} with
          | (s, Ok _) => (scans s, Ok (self s))
          | (s, Err e) => (scans s, Err e)
          | (s, Blocked) => (scans s, Blocked)
          end
      | Some d => (env, Ok (set_device (Some d) c))
      end
  | _, _ => (env, Err StopIteration)
  end.

(** * Vocabulary of the properties *)

(** Events delivered one after the other to the state update. *)
Fixpoint run_events (events : list (option string * pyval)) : M unit :=
  match events with
  | [] => mret tt
  | (btn, val) :: rest => apply_event btn val;; run_events rest
  end.

(** Presses of one button, each with its own value. *)
Definition presses (b : string) (vals : list pyval) : M unit :=
  run_events (map (fun v => (Some b, v)) vals).

(** The system once [self.state[btn] = val] has run. *)
Definition recorded (btn : option string) (val : pyval) (s : Sys) : Sys :=
  {| self := set_state (<[btn := val]> (state (self s))) (self s);
     scans := scans s |}.

(** The system once a read has taken the head of the device's queue. *)
Definition consumed (dev : InputDevice) (later : list ReadOutcome) (s : Sys) : Sys :=
  {| self := set_device
       (Some {| name := name dev; path := path dev; pending := later |}) (self s);
     scans := scans s |}.

(** The fields the control loop reads, with the throttle scale. *)
Definition controls (c : BluetoothGameController) :=
  (angle c, throttle c, drive_mode c, recording c, throttle_scale c).

(** [nm] contains [search], letter case aside. *)
Definition contains_ci (nm search : string) : Prop :=
  exists pre post : string,
    lower nm = String.append pre (String.append (lower search) post).

(** The two cycles of [__init__]. *)
Definition drive_modes : list string := ["user"; "local_angle"; "local"].
Definition recordings : list bool := [true; false].

(** The step along the drive modes: user → local_angle → local → user. *)
Definition advance_mode (m : string) : string :=
  if String.eqb m "user" then "local_angle"
  else if String.eqb m "local_angle" then "local"
  else "user".

(** Invariant of the controller object, set up by [__init__] and kept by
    every method: the two constants, the contents of the two cycles, and
    each toggled attribute holding the element its iterator yielded last. *)
Record wf (c : BluetoothGameController) : Prop := {
  wf_increment : throttle_scale_increment c = 0.05%float;
  wf_direction : y_axis_direction c = -1;
  wf_modes : saved (drive_mode_toggle c) = drive_modes;
  wf_mode_pos : (pos (drive_mode_toggle c) < 3)%nat;
  wf_mode : drive_modes !! ((pos (drive_mode_toggle c) + 2) mod 3)%nat = Some (drive_mode c);
  wf_recs : saved (recording_toggle c) = recordings;
  wf_rec_pos : (pos (recording_toggle c) < 2)%nat;
  wf_rec : recordings !! ((pos (recording_toggle c) + 1) mod 2)%nat = Some (recording c)
}.

(** The object [__init__] has built when the device is about to be set. *)
Definition fresh (cfg : Config) (search : option string) (verb : bool)
  : BluetoothGameController :=
  {| verbose := verb; running := false; state := ∅;
     angle := PyFloat 0; throttle := 0;
     throttle_scale := 1; throttle_scale_increment := 0.05;
     y_axis_direction := -1;
     drive_mode_toggle := {| saved := drive_modes; pos := 1 |};
     drive_mode := "user";
     recording_toggle := {| saved := recordings; pos := 1 |};
     recording := true;
     config := cfg; btn_map := cfg_button_map cfg;
     joystick_max_value := default 1280 (cfg_joystick_max_value cfg);
     device_search_term :=
       match search with
       | Some EmptyString | None =>
           match cfg_device_search_term cfg with
           | Some s => TStr s
           | None => TInt 1280
           end
       | Some s => TStr s
       end;
     device := None |}.

(** ** A concrete session, used to run the model *)

Definition sample_config : Config :=
  {| cfg_button_map :=
       <[0 := "LEFT_STICK_X"]> (<[1 := "LEFT_STICK_Y"]> (<[304 := "A"]>
       (<[305 := "B"]> (<[544 := "PAD_UP"]> (<[545 := "PAD_DOWN"]> ∅)))));
     cfg_joystick_max_value := None;
     cfg_device_search_term := Some "Nintendo" |}.

Definition sample_device (events : list ReadOutcome) : InputDevice :=
  {| name := "Nintendo Wii Remote Pro Controller";
     path := "/dev/input/event3";
     pending := events |}.

Definition sample_self (events : list ReadOutcome) : BluetoothGameController :=
  set_device (Some (sample_device events)) (fresh sample_config None false).

Definition sample_sys (events : list ReadOutcome) (env : list (list InputDevice)) : Sys :=
  {| self := sample_self events; scans := env |}.

(** ** Vocabulary of the further properties *)

(** What [read_loop] makes of a raw event: the button of its code and its
    value, divided by [joystick_max_value] when the type is EV_ABS. *)
Definition translated (c : BluetoothGameController) (event : RawEvent)
  : option string * pyval :=
  (btn_map c !! ev_code event,
   if (ev_type event =? EV_ABS)%Z
   then PyFloat (Z2F (ev_value event) / Z2F (joystick_max_value c))%float
   else PyInt (ev_value event)).

(** The division of an EV_ABS event goes through: both integers convert
    exactly and the divisor is not zero. *)
Definition scalable (c : BluetoothGameController) (event : RawEvent) : Prop :=
  ev_type event = EV_ABS ->
  Z.abs (ev_value event) < 2 ^ 53
  /\ joystick_max_value c <> 0 /\ Z.abs (joystick_max_value c) < 2 ^ 53.


(** The system with the controller object changed by [g]. *)
Definition on_self (g : BluetoothGameController -> BluetoothGameController)
    (s : Sys) : Sys :=
  {| self := g (self s); scans := scans s |}.

(** The attributes no handler assigns. *)
Definition wiring (c : BluetoothGameController) :=
  (config c, btn_map c, joystick_max_value c, device_search_term c, device c,
   verbose c, running c, throttle_scale_increment c, y_axis_direction c).


(** The names that have a handler. *)
Definition handled : list string :=
  ["LEFT_STICK_X"; "LEFT_STICK_Y"; "B"; "A"; "PAD_UP"; "PAD_DOWN"].

(** * Properties *)

(** The float specification is written with the core integer operations;
    this brings a goal back to the ones [lia] knows. *)
Ltac std_Z :=
  change IntDef.Z.sub with Z.sub in *;
  change IntDef.Z.add with Z.add in *;
  change IntDef.Z.max with Z.max in *;
  change IntDef.Z.leb with Z.leb in *;
  change IntDef.Z.eqb with Z.eqb in *.

(** ** Integers below 2^53 convert to floats without overflow *)

Lemma digits2_iter_xO (m k : positive) :
  digits2_pos (Pos.iter xO m k) = (digits2_pos m + k)%positive.
Proof.
  induction k as [| k IH] using Pos.peano_ind.
  - simpl. now rewrite Pos.add_1_r.
  - rewrite Pos.iter_succ. simpl. rewrite IH. now rewrite Pos.add_succ_r.
Qed.

Lemma digits2_lower (m : positive) : 2 ^ (Zpos (digits2_pos m) - 1) <= Zpos m.
Proof.
  induction m as [m IH | m IH |]; simpl digits2_pos.
  - rewrite Pos2Z.inj_succ. replace (Z.succ (Z.pos (digits2_pos m)) - 1) with (Z.succ (Z.pos (digits2_pos m) - 1)) by lia.
    rewrite Z.pow_succ_r by lia. lia.
  - rewrite Pos2Z.inj_succ. replace (Z.succ (Z.pos (digits2_pos m)) - 1) with (Z.succ (Z.pos (digits2_pos m) - 1)) by lia.
    rewrite Z.pow_succ_r by lia. lia.
  - simpl. lia.
Qed.

Lemma digits2_small (m : positive) : Zpos m < 2 ^ 53 -> Zpos (digits2_pos m) <= 53.
Proof.
  intros Hm. pose proof (digits2_lower m) as Hl.
  destruct (Z_le_gt_dec (Zpos (digits2_pos m)) 53) as [H | H]; [exact H |].
  assert (2 ^ 53 <= 2 ^ (Zpos (digits2_pos m) - 1)) by (apply Z.pow_le_mono_r; lia).
  lia.
Qed.

Lemma binary_round_aux_canonical (s : bool) (mz : positive) (ez : Z) :
  digits2_pos mz = 53%positive -> -1074 <= ez <= 971 ->
  binary_round_aux prec emax s (Zpos mz) ez loc_Exact = S754_finite s mz ez.
Proof.
  intros Hd He. unfold binary_round_aux, shr_fexp. simpl Zdigits2. rewrite Hd.
  assert (Hf : fexp prec emax (53 + ez) - ez = 0).
  { unfold fexp, emin, prec, emax. std_Z. lia. }
  std_Z. rewrite Hf.
  cbn [shr shr_record_of_loc shr_m loc_of_shr_record round_nearest_even Zdigits2].
  rewrite Hd. std_Z. rewrite Hf. cbn [shr shr_m].
  unfold emax, prec. std_Z. destruct (Z.leb_spec ez (1024 - 53)); [reflexivity | lia].
Qed.

Lemma binary_round_small (s : bool) (m : positive) :
  Zpos (digits2_pos m) <= 53 ->
  exists mz, binary_round prec emax s m 0 = S754_finite s mz (Zpos (digits2_pos m) - 53)
    /\ digits2_pos mz = 53%positive.
Proof.
  intros Hd. unfold binary_round.
  assert (Hf : fexp prec emax (Zpos (digits2_pos m) + 0) = Zpos (digits2_pos m) - 53).
  { unfold fexp, emin, prec, emax. std_Z. lia. }
  std_Z. rewrite Hf. unfold shl_align. std_Z.
  destruct (Zpos (digits2_pos m) - 53 - 0) as [| k | k] eqn:Hk.
  - exists m. assert (Hd53 : digits2_pos m = 53%positive) by lia.
    rewrite Hd53. split; [| reflexivity].
    now apply binary_round_aux_canonical.
  - lia.
  - exists (Pos.iter xO m k).
    assert (Hd53 : digits2_pos (Pos.iter xO m k) = 53%positive).
    { rewrite digits2_iter_xO. lia. }
    split; [| exact Hd53].
    apply binary_round_aux_canonical; [exact Hd53 | lia].
Qed.

Lemma valid_binary_canonical (s : bool) (mz : positive) (ez : Z) :
  digits2_pos mz = 53%positive -> -1074 <= ez <= 971 ->
  valid_binary (S754_finite s mz ez) = true.
Proof.
  intros Hd He. unfold SpecFloat.valid_binary, bounded, canonical_mantissa.
  rewrite Hd.
  assert (Hf : fexp prec emax (53 + ez) = ez).
  { unfold fexp, emin, prec, emax. std_Z. lia. }
  std_Z. rewrite Hf, Z.eqb_refl. simpl. unfold emax, prec. std_Z. apply Z.leb_le. lia.
Qed.

Lemma binary_normalize_small (z : Z) :
  z <> 0 -> Z.abs z < 2 ^ 53 ->
  exists mz ez, binary_normalize prec emax z 0 false = S754_finite (z <? 0)%Z mz ez
    /\ valid_binary (S754_finite (z <? 0)%Z mz ez) = true.
Proof.
  intros Hz Hb. destruct z as [| m | m]; [congruence | |]; simpl binary_normalize.
  - destruct (binary_round_small false m) as (mz & -> & Hd); [apply digits2_small; lia |].
    eexists _, _. split; [reflexivity |].
    pose proof (digits2_small m ltac:(lia)).
    apply valid_binary_canonical; [exact Hd | lia].
  - destruct (binary_round_small true m) as (mz & -> & Hd); [apply digits2_small; lia |].
    eexists _, _. split; [reflexivity |].
    pose proof (digits2_small m ltac:(lia)).
    apply valid_binary_canonical; [exact Hd | lia].
Qed.

Lemma Z2F_nonzero (z : Z) :
  z <> 0 -> Z.abs z < 2 ^ 53 -> (Z2F z =? 0)%float = false.
Proof.
  intros Hz Hb. unfold Z2F.
  destruct (binary_normalize_small z Hz Hb) as (mz & ez & -> & Hv).
  rewrite FloatAxioms.eqb_spec, (Prim2SF_SF2Prim _ Hv).
  change (Prim2SF 0) with (S754_zero false).
  unfold SFeqb, SFcompare. now destruct (z <? 0)%Z.
Qed.

Lemma py_float_small (z : Z) : Z.abs z < 2 ^ 53 -> py_float z = Ok (Z2F z).
Proof.
  intros Hb. destruct (Z.eq_dec z 0) as [-> | Hz]; [reflexivity |].
  unfold py_float.
  by destruct (binary_normalize_small z Hz Hb) as (mz & ez & -> & _).
Qed.

(** ** The handler table *)

Lemma func_map_lookup (b : string) (f : pyval -> M unit) :
  func_map !! b = Some f ->
  (b = "LEFT_STICK_X" /\ f = update_angle) \/
  (b = "LEFT_STICK_Y" /\ f = update_throttle) \/
  (b = "B" /\ f = toggle_recording) \/
  (b = "A" /\ f = toggle_drive_mode) \/
  (b = "PAD_UP" /\ f = increment_throttle_scale) \/
  (b = "PAD_DOWN" /\ f = decrement_throttle_scale).
Proof.
  unfold func_map. rewrite !lookup_insert_Some, lookup_empty.
  intros H. repeat (destruct H as [[<- <-] | [_ H]]; [tauto |]). discriminate.
Qed.

Lemma func_map_Y : func_map !! "LEFT_STICK_Y" = Some update_throttle.
Proof. reflexivity. Qed.
Lemma func_map_B : func_map !! "B" = Some toggle_recording.
Proof. reflexivity. Qed.
Lemma func_map_A : func_map !! "A" = Some toggle_drive_mode.
Proof. reflexivity. Qed.
Lemma func_map_UP : func_map !! "PAD_UP" = Some increment_throttle_scale.
Proof. reflexivity. Qed.
Lemma func_map_DOWN : func_map !! "PAD_DOWN" = Some decrement_throttle_scale.
Proof. reflexivity. Qed.

Lemma apply_event_unfold btn val s :
  apply_event btn val s =
  match btn ≫= (func_map !!.) with
  | Some func => func val (recorded btn val s)
  | None => (recorded btn val s, Ok tt)
  end.
Proof.
  unfold apply_event, mbind, M_bind, modify_self, recorded. simpl.
  destruct btn as [b|]; simpl; [by destruct (func_map !! b) | done].
Qed.

Lemma recorded_wf btn val s : wf (self s) -> wf (self (recorded btn val s)).
Proof. intros []. by split. Qed.

Lemma apply_event_handler b f val s :
  func_map !! b = Some f ->
  apply_event (Some b) val s = f val (recorded (Some b) val s).
Proof. intros Hf. rewrite apply_event_unfold. simpl. by rewrite Hf. Qed.

Lemma run_events_cons btn val rest s :
  run_events ((btn, val) :: rest) s =
  match apply_event btn val s with
  | (s', Ok _) => run_events rest s'
  | (s', Err e) => (s', Err e)
  | (s', Blocked) => (s', Blocked)
  end.
Proof. reflexivity. Qed.

Lemma sample_self_init events env :
  init (Some (sample_device events)) sample_config None false env
  = (env, Ok (sample_self events)).
Proof. reflexivity. Qed.

Lemma sample_self_wf events : wf (sample_self events).
Proof. split; simpl; first [reflexivity | lia]. Qed.

(** ** Recording the raw value *)

(** C1, as amended: an event whose button is None is recorded like any
    other: the value is stored under the key None. The entries of the named
    buttons and the control fields are left alone, and no handler runs. *)
Theorem apply_event_none_recorded (val : pyval) (s : Sys) :
  apply_event None val s
  = ({| self := set_state (<[None := val]> (state (self s))) (self s);
        scans := scans s |}, Ok tt)
  /\ state (self (apply_event None val s).1) !! None = Some val
  /\ forall b : string,
       state (self (apply_event None val s).1) !! Some b = state (self s) !! Some b.
Proof.
  rewrite apply_event_unfold. simpl. split; [done |]. split.
  - apply lookup_insert_eq.
  - intros b. by apply lookup_insert_ne.
Qed.

(** C1 as stated fails: an event with no button, delivered to the fresh
    sample session, changes the recorded mapping. *)
Lemma apply_event_none_changes_state :
  state (self (apply_event None (PyInt 5) (sample_sys [] [])).1)
  <> state (self (sample_sys [] [])).
Proof.
  rewrite apply_event_unfold. simpl.
  apply insert_non_empty.
Qed.

(** ** Throttle *)

Lemma py_float_minus_one : py_float (-1) = Ok (-1)%float.
Proof. reflexivity. Qed.

Lemma update_throttle_wf (val : pyval) (v : float) (s : Sys) :
  wf (self s) -> to_float val = Ok v ->
  update_throttle val s
  = ({| self := set_throttle (v * throttle_scale (self s) * -1)%float (self s);
        scans := scans s |}, Ok tt).
Proof.
  intros Hwf Hv. unfold update_throttle, mbind, M_bind, get_self, lift, modify_self.
  rewrite Hv, (wf_direction _ Hwf), py_float_minus_one. reflexivity.
Qed.

(** C3: a LEFT_STICK_Y event with value [v] sets [throttle] to
    [v * throttle_scale * -1] (float products, in that order), whatever the
    current [throttle_scale]; 0.5 at scale 1.0 gives -0.5. *)
Theorem throttle_from_y_axis (val : pyval) (v : float) (s : Sys) :
  wf (self s) -> to_float val = Ok v ->
  let r := apply_event (Some "LEFT_STICK_Y") val s in
  r.2 = Ok tt
  /\ throttle (self r.1) = (v * throttle_scale (self s) * -1)%float
  /\ (v = 0.5%float -> throttle_scale (self s) = 1%float ->
      throttle (self r.1) = (-0.5)%float).
Proof.
  intros Hwf Hv r. subst r. rewrite (apply_event_handler _ _ _ _ func_map_Y).
  rewrite (update_throttle_wf val v); [| by apply recorded_wf | done].
  simpl. split; [done |]. split; [done |].
  intros -> ->. reflexivity.
Qed.

Lemma throttle_from_y_axis_witness :
  wf (self (sample_sys [] [])) /\ to_float (PyFloat 0.5) = Ok 0.5%float
  /\ throttle (self (apply_event (Some "LEFT_STICK_Y") (PyFloat 0.5) (sample_sys [] [])).1)
     = (-0.5)%float.
Proof.
  split; [apply sample_self_wf |]. split; [reflexivity |].
  apply (throttle_from_y_axis (PyFloat 0.5) 0.5%float (sample_sys [] [])
           (sample_self_wf []) eq_refl); reflexivity.
Defined.

(** ** Toggles only move on value 1 *)

Lemma handler_keeps_toggles (b : string) (f : pyval -> M unit) (val : pyval) (s : Sys) :
  func_map !! b = Some f -> py_eq_one val = false ->
  drive_mode (self (f val s).1) = drive_mode (self s)
  /\ recording (self (f val s).1) = recording (self s).
Proof.
  intros Hf Hval.
  destruct (func_map_lookup b f Hf)
    as [[_ ->] | [[_ ->] | [[_ ->] | [[_ ->] | [[_ ->] | [_ ->]]]]]].
  - done.
  - unfold update_throttle, mbind, M_bind, get_self, lift, modify_self.
    destruct (to_float val); [| done | done].
    by destruct (py_float (y_axis_direction (self s))).
  - unfold toggle_recording. by rewrite Hval.
  - unfold toggle_drive_mode. by rewrite Hval.
  - unfold increment_throttle_scale. by rewrite Hval.
  - unfold decrement_throttle_scale. by rewrite Hval.
Qed.

Lemma apply_event_keeps_toggles (btn : option string) (val : pyval) (s : Sys) :
  py_eq_one val = false ->
  drive_mode (self (apply_event btn val s).1) = drive_mode (self s)
  /\ recording (self (apply_event btn val s).1) = recording (self s).
Proof.
  intros Hval. rewrite apply_event_unfold.
  destruct btn as [b|]; simpl; [| done].
  destruct (func_map !! b) as [f|] eqn:Hf; [| done].
  by destruct (handler_keeps_toggles b f val (recorded (Some b) val s) Hf Hval).
Qed.

(** C6: a sequence of events none of which has value 1 leaves [drive_mode]
    and [recording] as they were. The state compared is the one the object
    is left in, also when a handler raised on the way. *)
Theorem no_press_keeps_toggles (events : list (option string * pyval)) (s : Sys) :
  Forall (fun ev => py_eq_one ev.2 = false) events ->
  drive_mode (self (run_events events s).1) = drive_mode (self s)
  /\ recording (self (run_events events s).1) = recording (self s).
Proof.
  intros Hall. revert s.
  induction Hall as [| [btn val] rest Hval _ IH]; intros s; [done |].
  rewrite run_events_cons.
  destruct (apply_event_keeps_toggles btn val s Hval) as [Hm Hr].
  destruct (apply_event btn val s) as [s' [[] | e |]]; simpl in *.
  - destruct (IH s') as [-> ->]. done.
  - done.
  - done.
Qed.

Lemma no_press_keeps_toggles_witness :
  let events := [(Some "A", PyInt 0); (Some "B", PyFloat 0.5); (None, PyNone);
                 (Some "LEFT_STICK_Y", PyFloat 0.25); (Some "B", PyInt 2)] in
  Forall (fun ev => py_eq_one ev.2 = false) events
  /\ drive_mode (self (run_events events (sample_sys [] [])).1) = "user"
  /\ recording (self (run_events events (sample_sys [] [])).1) = true.
Proof.
  intros events. split; [by repeat constructor |].
  apply (no_press_keeps_toggles events (sample_sys [] [])). by repeat constructor.
Defined.

(** ** The two toggles *)

Lemma toggle_drive_mode_press (val : pyval) (s : Sys) :
  wf (self s) -> py_eq_one val = true ->
  exists s', toggle_drive_mode val s = (s', Ok tt)
    /\ wf (self s')
    /\ drive_mode (self s') = advance_mode (drive_mode (self s)).
Proof.
  intros Hwf Hval. unfold toggle_drive_mode. rewrite Hval.
  unfold mbind, M_bind, get_self, modify_self, cycle_next.
  destruct Hwf as [Hi Hd Hm Hp Hcur Hr Hrp Hrcur].
  rewrite Hm.
  destruct (pos (drive_mode_toggle (self s))) as [|[|[|p]]] eqn:Hpos; [| | | lia];
    simpl in Hcur; injection Hcur as Hcur; rewrite <- Hcur; simpl;
    (eexists; split; [reflexivity |]; split; [| reflexivity]);
    split; simpl; try done; lia.
Qed.

Lemma toggle_recording_press (val : pyval) (s : Sys) :
  wf (self s) -> py_eq_one val = true ->
  exists s', toggle_recording val s = (s', Ok tt)
    /\ wf (self s')
    /\ recording (self s') = negb (recording (self s)).
Proof.
  intros Hwf Hval. unfold toggle_recording. rewrite Hval.
  unfold mbind, M_bind, get_self, modify_self, cycle_next.
  destruct Hwf as [Hi Hd Hm Hp Hcur Hr Hrp Hrcur].
  rewrite Hr.
  destruct (pos (recording_toggle (self s))) as [|[|p]] eqn:Hpos; [| | lia];
    simpl in Hrcur; injection Hrcur as Hrcur; rewrite <- Hrcur; simpl;
    (eexists; split; [reflexivity |]; split; [| reflexivity]);
    split; simpl; try done; lia.
Qed.

Lemma presses_drive_mode (vals : list pyval) (s : Sys) :
  wf (self s) -> Forall (fun v => py_eq_one v = true) vals ->
  exists s', presses "A" vals s = (s', Ok tt)
    /\ wf (self s')
    /\ drive_mode (self s')
       = Nat.iter (length vals) advance_mode (drive_mode (self s)).
Proof.
  intros Hwf Hall. revert s Hwf.
  induction Hall as [| val rest Hval _ IH]; intros s Hwf.
  - by exists s.
  - unfold presses. simpl map. rewrite run_events_cons.
    rewrite (apply_event_handler _ _ _ _ func_map_A).
    destruct (toggle_drive_mode_press val (recorded (Some "A") val s))
      as (s1 & -> & Hwf1 & Hm1); [by apply recorded_wf | done |].
    destruct (IH s1 Hwf1) as (s2 & Hrun & Hwf2 & Hm2).
    exists s2. split; [exact Hrun |]. split; [done |].
    rewrite Hm2, Hm1. simpl length. by rewrite Nat.iter_succ_r.
Qed.

Lemma presses_recording (vals : list pyval) (s : Sys) :
  wf (self s) -> Forall (fun v => py_eq_one v = true) vals ->
  exists s', presses "B" vals s = (s', Ok tt)
    /\ wf (self s')
    /\ recording (self s') = Nat.iter (length vals) negb (recording (self s)).
Proof.
  intros Hwf Hall. revert s Hwf.
  induction Hall as [| val rest Hval _ IH]; intros s Hwf.
  - by exists s.
  - unfold presses. simpl map. rewrite run_events_cons.
    rewrite (apply_event_handler _ _ _ _ func_map_B).
    destruct (toggle_recording_press val (recorded (Some "B") val s))
      as (s1 & -> & Hwf1 & Hm1); [by apply recorded_wf | done |].
    destruct (IH s1 Hwf1) as (s2 & Hrun & Hwf2 & Hm2).
    exists s2. split; [exact Hrun |]. split; [done |].
    rewrite Hm2, Hm1. simpl length. by rewrite Nat.iter_succ_r.
Qed.

Lemma wf_drive_mode (c : BluetoothGameController) :
  wf c -> drive_mode c = "user" \/ drive_mode c = "local_angle" \/ drive_mode c = "local".
Proof.
  intros [_ _ _ Hp Hcur _ _ _].
  destruct (pos (drive_mode_toggle c)) as [|[|[|p]]]; [| | | lia];
    simpl in Hcur; injection Hcur as <-; tauto.
Qed.

Lemma advance_mode_three (m : string) :
  m = "user" \/ m = "local_angle" \/ m = "local" ->
  advance_mode (advance_mode (advance_mode m)) = m.
Proof. by intros [-> | [-> | ->]]. Qed.

Lemma iter_advance_mode_three (n : nat) (m : string) :
  m = "user" \/ m = "local_angle" \/ m = "local" ->
  Nat.iter (n + 3) advance_mode m = Nat.iter n advance_mode m.
Proof.
  intros Hm. rewrite Nat.add_comm.
  change (Nat.iter (3 + n) advance_mode m)
    with (advance_mode (advance_mode (advance_mode (Nat.iter n advance_mode m)))).
  apply advance_mode_three.
  induction n as [| n IH]; [done |].
  simpl. by destruct IH as [-> | [-> | ->]]; auto.
Qed.

Lemma iter_advance_mode_user (n : nat) :
  drive_modes !! (n mod 3)%nat = Some (Nat.iter n advance_mode "user").
Proof.
  induction n as [| n IH]; [done |].
  replace (S n) with (n + 1)%nat at 1 by lia.
  rewrite Nat.Div0.add_mod. simpl Nat.iter.
  pose proof (Nat.mod_upper_bound n 3 ltac:(lia)) as Hlt.
  destruct (n mod 3)%nat as [|[|[|r]]]; [| | | lia];
    simpl in IH; injection IH as <-; reflexivity.
Qed.

(** C4: [N] deliveries of the drive-mode button with value 1 all succeed
    and move [drive_mode] [N] steps along user → local_angle → local → user,
    one step per event; three more presses bring the same mode back, and
    counted from a mode of "user" the result is the element [N mod 3] of the
    cycle. *)
Theorem drive_mode_cycles (vals : list pyval) (s : Sys) :
  wf (self s) -> Forall (fun v => py_eq_one v = true) vals ->
  (presses "A" vals s).2 = Ok tt
  /\ drive_mode (self (presses "A" vals s).1)
     = Nat.iter (length vals) advance_mode (drive_mode (self s))
  /\ (forall more : list pyval,
        Forall (fun v => py_eq_one v = true) more -> length more = 3%nat ->
        drive_mode (self (presses "A" (vals ++ more) s).1)
        = drive_mode (self (presses "A" vals s).1))
  /\ (drive_mode (self s) = "user" ->
      drive_modes !! (length vals mod 3)%nat
      = Some (drive_mode (self (presses "A" vals s).1))).
Proof.
  intros Hwf Hall.
  destruct (presses_drive_mode vals s Hwf Hall) as (s' & Hrun & _ & Hm).
  rewrite Hrun. simpl. split; [done |]. split; [done |]. split.
  - intros more Hmore Hlen.
    destruct (presses_drive_mode (vals ++ more) s Hwf) as (s2 & Hrun2 & _ & Hm2);
      [by apply Forall_app |].
    rewrite Hrun2. simpl. rewrite Hm2, Hm, length_app, Hlen.
    apply iter_advance_mode_three. by apply wf_drive_mode.
  - intros Huser. rewrite Hm, Huser. apply iter_advance_mode_user.
Qed.

Lemma drive_mode_cycles_witness :
  let vals := [PyInt 1; PyFloat 1; PyInt 1; PyInt 1] in
  wf (self (sample_sys [] []))
  /\ Forall (fun v => py_eq_one v = true) vals
  /\ (presses "A" vals (sample_sys [] [])).2 = Ok tt
  /\ drive_mode (self (presses "A" vals (sample_sys [] [])).1) = "local_angle".
Proof.
  intros vals.
  assert (Hones : Forall (fun v => py_eq_one v = true) vals) by (by repeat constructor).
  split; [apply sample_self_wf |]. split; [exact Hones |].
  destruct (drive_mode_cycles vals (sample_sys [] []) (sample_self_wf []) Hones)
    as (Hok & Hm & _ & _).
  split; [exact Hok | exact Hm].
Defined.

Lemma iter_negb_even (n : nat) (b : bool) :
  Nat.Even n -> Nat.iter n negb b = b.
Proof.
  intros [k ->]. induction k as [| k IH]; [done |].
  replace (2 * S k)%nat with (S (S (2 * k))) by lia.
  simpl Nat.iter. simpl in IH. rewrite IH. apply negb_involutive.
Qed.

(** C5: [N] deliveries of the recording button with value 1 all succeed
    and flip [recording] once per event; after an even number of them
    [recording] has the value it started with, after an odd number the
    other one. *)
Theorem recording_flips (vals : list pyval) (s : Sys) :
  wf (self s) -> Forall (fun v => py_eq_one v = true) vals ->
  (presses "B" vals s).2 = Ok tt
  /\ recording (self (presses "B" vals s).1)
     = Nat.iter (length vals) negb (recording (self s))
  /\ (Nat.Even (length vals) ->
      recording (self (presses "B" vals s).1) = recording (self s))
  /\ (Nat.Odd (length vals) ->
      recording (self (presses "B" vals s).1) = negb (recording (self s))).
Proof.
  intros Hwf Hall.
  destruct (presses_recording vals s Hwf Hall) as (s' & Hrun & _ & Hm).
  rewrite Hrun. simpl. split; [done |]. split; [done |]. split.
  - intros Heven. rewrite Hm. by apply iter_negb_even.
  - intros [k Hk]. rewrite Hm, Hk.
    replace (2 * k + 1)%nat with (S (2 * k)) by lia.
    simpl Nat.iter. f_equal. apply iter_negb_even. by exists k.
Qed.

Lemma recording_flips_witness :
  let vals := [PyInt 1; PyFloat 1; PyInt 1] in
  wf (self (sample_sys [] []))
  /\ Forall (fun v => py_eq_one v = true) vals
  /\ (presses "B" vals (sample_sys [] [])).2 = Ok tt
  /\ recording (self (presses "B" vals (sample_sys [] [])).1) = false.
Proof.
  intros vals.
  assert (Hones : Forall (fun v => py_eq_one v = true) vals) by (by repeat constructor).
  split; [apply sample_self_wf |]. split; [exact Hones |].
  destruct (recording_flips vals (sample_sys [] []) (sample_self_wf []) Hones)
    as (Hok & Hm & _ & _).
  split; [exact Hok | exact Hm].
Defined.

(** ** Throttle scale *)

Lemma set_throttle_scale_wf (c : BluetoothGameController) (x : float) :
  wf c -> wf (set_throttle_scale x c).
Proof. intros []. by split. Qed.

Lemma scale_press (b : string) (op : float -> float -> float) (val : pyval) (s : Sys) :
  (b = "PAD_UP" /\ op = PrimFloat.add) \/ (b = "PAD_DOWN" /\ op = PrimFloat.sub) ->
  wf (self s) -> py_eq_one val = true ->
  exists s', apply_event (Some b) val s = (s', Ok tt)
    /\ wf (self s')
    /\ throttle_scale (self s') = op (throttle_scale (self s)) 0.05%float.
Proof.
  intros Hb Hwf Hval.
  pose proof (wf_increment _ Hwf) as Hinc.
  destruct Hb as [[-> ->] | [-> ->]].
  - rewrite (apply_event_handler _ _ _ _ func_map_UP).
    unfold increment_throttle_scale. rewrite Hval. unfold modify_self.
    eexists. split; [reflexivity |]. split.
    + simpl. by apply set_throttle_scale_wf, recorded_wf.
    + simpl. by rewrite Hinc.
  - rewrite (apply_event_handler _ _ _ _ func_map_DOWN).
    unfold decrement_throttle_scale. rewrite Hval. unfold modify_self.
    eexists. split; [reflexivity |]. split.
    + simpl. by apply set_throttle_scale_wf, recorded_wf.
    + simpl. by rewrite Hinc.
Qed.

Lemma presses_scale (b : string) (op : float -> float -> float)
    (vals : list pyval) (s : Sys) :
  (b = "PAD_UP" /\ op = PrimFloat.add) \/ (b = "PAD_DOWN" /\ op = PrimFloat.sub) ->
  wf (self s) -> Forall (fun v => py_eq_one v = true) vals ->
  exists s', presses b vals s = (s', Ok tt)
    /\ wf (self s')
    /\ throttle_scale (self s')
       = Nat.iter (length vals) (fun x => op x 0.05%float) (throttle_scale (self s)).
Proof.
  intros Hb Hwf Hall. revert s Hwf.
  induction Hall as [| val rest Hval _ IH]; intros s Hwf.
  - by exists s.
  - unfold presses. simpl map. rewrite run_events_cons.
    destruct (scale_press b op val s Hb Hwf Hval) as (s1 & -> & Hwf1 & Hs1).
    destruct (IH s1 Hwf1) as (s2 & Hrun & Hwf2 & Hs2).
    exists s2. split; [exact Hrun |]. split; [done |].
    rewrite Hs2, Hs1. simpl length. by rewrite Nat.iter_succ_r.
Qed.

(** C7: a PAD_UP event with value 1 replaces [throttle_scale] by
    [throttle_scale + 0.05] and a PAD_DOWN event with value 1 by
    [throttle_scale - 0.05] (float operations, 0.05 being the double nearest
    to it); nothing clamps the result: 21 decrements from 1.0 leave it below
    zero; 4 increments from 1.0 leave it within 1e-9 of 1.2. *)
Theorem throttle_scale_steps (val : pyval) (s : Sys) :
  wf (self s) -> py_eq_one val = true ->
  let up := apply_event (Some "PAD_UP") val s in
  let down := apply_event (Some "PAD_DOWN") val s in
  let up4 := presses "PAD_UP" (replicate 4 val) s in
  let down21 := presses "PAD_DOWN" (replicate 21 val) s in
  up.2 = Ok tt
  /\ throttle_scale (self up.1) = (throttle_scale (self s) + 0.05)%float
  /\ down.2 = Ok tt
  /\ throttle_scale (self down.1) = (throttle_scale (self s) - 0.05)%float
  /\ (throttle_scale (self s) = 1%float ->
      up4.2 = Ok tt
      /\ (abs (throttle_scale (self up4.1) - 1.2) <? 1e-9)%float = true
      /\ down21.2 = Ok tt
      /\ (throttle_scale (self down21.1) <? 0)%float = true).
Proof.
  intros Hwf Hval.
  assert (Hones : forall n, Forall (fun v => py_eq_one v = true) (replicate n val)).
  { intros n. by apply Forall_replicate. }
  destruct (scale_press "PAD_UP" PrimFloat.add val s)
    as (s1 & E1 & _ & H1); [tauto.. |].
  destruct (scale_press "PAD_DOWN" PrimFloat.sub val s)
    as (s2 & E2 & _ & H2); [tauto.. |].
  destruct (presses_scale "PAD_UP" PrimFloat.add (replicate 4 val) s)
    as (s3 & E3 & _ & H3); [tauto | done | apply Hones |].
  destruct (presses_scale "PAD_DOWN" PrimFloat.sub (replicate 21 val) s)
    as (s4 & E4 & _ & H4); [tauto | done | apply Hones |].
  rewrite length_replicate in H3, H4.
  intros up down up4 down21. subst up down up4 down21.
  rewrite E1, E2, E3, E4. cbn [fst snd]. rewrite H1, H2, H3, H4.
  do 4 (split; [reflexivity |]).
  intros Hone. rewrite Hone. repeat split; vm_compute; reflexivity.
Qed.

Lemma throttle_scale_steps_witness :
  wf (self (sample_sys [] [])) /\ py_eq_one (PyInt 1) = true
  /\ throttle_scale (self (apply_event (Some "PAD_UP") (PyInt 1) (sample_sys [] [])).1)
     = (1 + 0.05)%float
  /\ throttle_scale (self (apply_event (Some "PAD_DOWN") (PyInt 1) (sample_sys [] [])).1)
     = (1 - 0.05)%float.
Proof.
  split; [apply sample_self_wf |]. split; [reflexivity |].
  destruct (throttle_scale_steps (PyInt 1) (sample_sys [] []) (sample_self_wf []) eq_refl)
    as (_ & Hup & _ & Hdown & _).
  split; [exact Hup | exact Hdown].
Defined.

(** ** Translation of a raw event *)

Lemma read_loop_yield (s : Sys) (dev : InputDevice) (event : RawEvent)
    (later : list ReadOutcome) :
  device (self s) = Some dev -> pending dev = Yield event :: later ->
  read_loop s =
  let btn := btn_map (self s) !! ev_code event in
  if (ev_type event =? EV_ABS)%Z then
    match py_float (joystick_max_value (self s)) with
    | Ok m =>
        match py_truediv (PyInt (ev_value event)) m with
        | Ok q => (consumed dev later s, Ok (btn, PyFloat q))
        | Err e => (consumed dev later s, Err e)
        | Blocked => (consumed dev later s, Blocked)
        end
    | Err e => (consumed dev later s, Err e)
    | Blocked => (consumed dev later s, Blocked)
    end
  else (consumed dev later s, Ok (btn, PyInt (ev_value event))).
Proof.
  intros Hdev Hpend.
  unfold read_loop, mbind, M_bind, get_self, modify_self, lift, mret, M_ret.
  rewrite Hdev, Hpend. fold (consumed dev later s).
  destruct (ev_type event =? EV_ABS)%Z; [| done]. cbv zeta.
  destruct (py_float (joystick_max_value (self s))) as [m | |]; [| done | done].
  by destruct (py_truediv (PyInt (ev_value event)) m).
Qed.

(** A zero [joystick_max_value] makes the division raise. *)
Lemma read_loop_zero_max (s : Sys) (dev : InputDevice) (event : RawEvent)
    (later : list ReadOutcome) :
  device (self s) = Some dev -> pending dev = Yield event :: later ->
  ev_type event = EV_ABS -> Z.abs (ev_value event) < 2 ^ 53 ->
  joystick_max_value (self s) = 0 ->
  read_loop s = (consumed dev later s, Err ZeroDivisionError).
Proof.
  intros Hdev Hpend Habs Hv Hm.
  rewrite (read_loop_yield s dev event later Hdev Hpend). cbv zeta.
  rewrite Habs, Z.eqb_refl, Hm.
  unfold py_truediv, to_float, mbind, result_bind.
  by rewrite (py_float_small _ Hv).
Qed.

(** C2: an EV_ABS event with value [v] is translated to the quotient of
    the floats of [v] and of [joystick_max_value] (one binary64 division,
    the integers being below 2^53 in size and the divisor not zero), so 640
    with 1280 gives 0.5; an event of any other type keeps its integer
    value. In both cases the button is the button map's entry for the code. *)
Theorem read_loop_translation (s : Sys) (dev : InputDevice) (event : RawEvent)
    (later : list ReadOutcome) :
  device (self s) = Some dev -> pending dev = Yield event :: later ->
  let btn := btn_map (self s) !! ev_code event in
  let v := ev_value event in
  let m := joystick_max_value (self s) in
  (ev_type event = EV_ABS -> Z.abs v < 2 ^ 53 -> m <> 0 -> Z.abs m < 2 ^ 53 ->
   read_loop s = (consumed dev later s, Ok (btn, PyFloat (Z2F v / Z2F m)%float)))
  /\ (ev_type event = EV_ABS -> v = 640 -> m = 1280 ->
      read_loop s = (consumed dev later s, Ok (btn, PyFloat 0.5)))
  /\ (ev_type event <> EV_ABS ->
      read_loop s = (consumed dev later s, Ok (btn, PyInt v))).
Proof.
  intros Hdev Hpend btn v m. rewrite (read_loop_yield s dev event later Hdev Hpend).
  fold btn v m. cbv zeta. repeat split.
  - intros -> Hv Hm0 Hm. rewrite Z.eqb_refl, (py_float_small m Hm).
    unfold py_truediv, to_float, mbind, result_bind.
    by rewrite (py_float_small v Hv), (Z2F_nonzero m Hm0 Hm).
  - intros -> -> ->. reflexivity.
  - intros Hne. by apply Z.eqb_neq in Hne as ->.
Qed.

Lemma read_loop_translation_witness :
  let event := {| ev_type := EV_ABS; ev_code := 1; ev_value := 640 |} in
  let key := {| ev_type := 1; ev_code := 304; ev_value := 1 |} in
  let stick := {| ev_type := EV_ABS; ev_code := 0; ev_value := -320 |} in
  device (self (sample_sys [Yield event; Yield key] [])) = Some (sample_device [Yield event; Yield key])
  /\ pending (sample_device [Yield event; Yield key]) = Yield event :: [Yield key]
  /\ read_loop (sample_sys [Yield event; Yield key] [])
     = (sample_sys [Yield key] [], Ok (Some "LEFT_STICK_Y", PyFloat 0.5))
  /\ read_loop (sample_sys [Yield key] []) = (sample_sys [] [], Ok (Some "A", PyInt 1))
  /\ read_loop (sample_sys [Yield stick] [])
     = (sample_sys [] [], Ok (Some "LEFT_STICK_X", PyFloat (-0.25))).
Proof.
  intros event key stick. split; [reflexivity |]. split; [reflexivity |].
  split; [| split].
  - apply (proj1 (proj2 (read_loop_translation
      (sample_sys [Yield event; Yield key] []) (sample_device [Yield event; Yield key])
      event [Yield key] eq_refl eq_refl))); reflexivity.
  - apply (proj2 (proj2 (read_loop_translation
      (sample_sys [Yield key] []) (sample_device [Yield key])
      key [] eq_refl eq_refl))). discriminate.
  - apply (proj1 (read_loop_translation
      (sample_sys [Yield stick] []) (sample_device [Yield stick])
      stick [] eq_refl eq_refl)); [reflexivity | reflexivity | discriminate | reflexivity].
Defined.

(** ** Device lookup *)

Lemma starts_with_append (a b : string) :
  starts_with a b = true <-> exists q, b = String.append a q.
Proof.
  revert b. induction a as [| c a IH]; intros b; simpl.
  - split; [by exists b | done].
  - destruct b as [| c' b]; [split; [done | by intros [q ?]] |].
    rewrite andb_true_iff, IH, Ascii.eqb_eq.
    split; [intros [-> [q ->]]; by exists q | intros [q Hq]].
    injection Hq as -> ->. split; [done | by exists q].
Qed.

Lemma str_in_append (a b : string) :
  str_in a b = true <-> exists p q, b = String.append p (String.append a q).
Proof.
  induction b as [| c b IH].
  - simpl. rewrite orb_false_r, starts_with_append. split.
    + intros [q Hq]. by exists EmptyString, q.
    + intros ([| c p] & q & Hq); [by exists q | discriminate].
  - cbn [str_in]. rewrite orb_true_iff, IH, starts_with_append. split.
    + intros [[q Hq] | (p & q & Hq)].
      * by exists EmptyString, q.
      * exists (String c p), q. simpl. by rewrite Hq.
    + intros ([| c' p] & q & Hq).
      * left. by exists q.
      * right. exists p, q.
        change (String c b = String c' (String.append p (String.append a q))) in Hq.
        congruence.
Qed.

Lemma str_in_contains_ci (search : string) (d : InputDevice) :
  str_in (lower search) (lower (name d)) = true <-> contains_ci (name d) search.
Proof. apply str_in_append. Qed.

Lemma collect_likely_filter (search : string) (devs acc : list InputDevice) :
  collect_likely (TStr search) devs acc
  = Ok (acc ++ List.filter (fun d => str_in (lower search) (lower (name d))) devs)%list.
Proof.
  revert acc. induction devs as [| d devs IH]; intros acc; simpl.
  - by rewrite app_nil_r.
  - rewrite IH. destruct (str_in _ _); [by rewrite <- app_assoc | done].
Qed.

Lemma filter_no_hit (search : string) (l : list InputDevice) :
  Forall (fun d => ~ contains_ci (name d) search) l ->
  List.filter (fun d => str_in (lower search) (lower (name d))) l = [].
Proof.
  induction 1 as [| d l Hd _ IH]; [done |]. simpl.
  destruct (str_in _ _) eqn:E; [| done].
  by apply str_in_contains_ci in E.
Qed.

Lemma find_input_device_filter (search : string) (devs : list InputDevice)
    (later : list (list InputDevice)) (s : Sys) :
  scans s = devs :: later ->
  find_input_device (TStr search) s =
  ({| self := self s; scans := later |},
   match List.filter (fun d => str_in (lower search) (lower (name d))) devs with
   | [] => Ok None
   | [d] => Ok (Some d)
   | _ :: _ :: _ => Err ValueError
   end).
Proof.
  intros Hs. unfold find_input_device. rewrite Hs, collect_likely_filter. simpl.
  by destruct (List.filter _ devs) as [| d [| d' l]].
Qed.

Lemma find_input_device_unique (search : string) (d : InputDevice)
    (l1 l2 : list InputDevice) (later : list (list InputDevice)) (s : Sys) :
  scans s = (l1 ++ d :: l2)%list :: later ->
  contains_ci (name d) search ->
  Forall (fun x => ~ contains_ci (name x) search) l1 ->
  Forall (fun x => ~ contains_ci (name x) search) l2 ->
  find_input_device (TStr search) s = ({| self := self s; scans := later |}, Ok (Some d)).
Proof.
  intros Hs Hd H1 H2. rewrite (find_input_device_filter search _ later s Hs).
  rewrite List.filter_app, (filter_no_hit _ _ H1). simpl.
  apply str_in_contains_ci in Hd as ->. by rewrite (filter_no_hit _ _ H2).
Qed.

Lemma find_input_device_none (search : string) (devs : list InputDevice)
    (later : list (list InputDevice)) (s : Sys) :
  scans s = devs :: later ->
  Forall (fun x => ~ contains_ci (name x) search) devs ->
  find_input_device (TStr search) s = ({| self := self s; scans := later |}, Ok None).
Proof.
  intros Hs Hnone. rewrite (find_input_device_filter search devs later s Hs).
  by rewrite (filter_no_hit _ _ Hnone).
Qed.

(** C8: [find_input_device] looks at the next enumeration. When exactly
    one device's name contains the search term, letter case aside, that
    device is returned; when none does the result is None; when two or more
    do, ValueError is raised and no device is returned. *)
Theorem find_input_device_cases (search : string) (devs : list InputDevice)
    (later : list (list InputDevice)) (s : Sys) :
  scans s = devs :: later ->
  let s' := {| self := self s; scans := later |} in
  let hit d := contains_ci (name d) search in
  (forall d l1 l2,
     devs = (l1 ++ d :: l2)%list -> hit d ->
     Forall (fun x => ~ hit x) l1 -> Forall (fun x => ~ hit x) l2 ->
     find_input_device (TStr search) s = (s', Ok (Some d)))
  /\ (Forall (fun x => ~ hit x) devs ->
      find_input_device (TStr search) s = (s', Ok None))
  /\ (forall d1 d2 l1 l2 l3,
        devs = (l1 ++ d1 :: l2 ++ d2 :: l3)%list -> hit d1 -> hit d2 ->
        find_input_device (TStr search) s = (s', Err ValueError)).
Proof.
  intros Hs s' hit. repeat split.
  - intros d l1 l2 -> Hd H1 H2.
    by apply (find_input_device_unique search d l1 l2 later s).
  - intros Hnone. by apply (find_input_device_none search devs later s).
  - intros d1 d2 l1 l2 l3 -> Hd1 Hd2.
    rewrite (find_input_device_filter search _ later s Hs). fold s'.
    apply str_in_contains_ci in Hd1, Hd2.
    rewrite List.filter_app. simpl. rewrite Hd1, List.filter_app. simpl. rewrite Hd2.
    destruct (List.filter _ l1) as [| x [| y l]]; simpl; try done;
      by destruct (List.filter _ l2).
Qed.

Lemma find_input_device_cases_witness :
  let kbd := {| name := "AT Translated Set 2 keyboard";
                path := "/dev/input/event0"; pending := [] |} in
  let pad := sample_device [] in
  scans (sample_sys [] [[kbd; pad]; [pad; kbd; pad]]) = [kbd; pad] :: [[pad; kbd; pad]]
  /\ find_input_device (TStr "NINTENDO") (sample_sys [] [[kbd; pad]; [pad; kbd; pad]])
     = (sample_sys [] [[pad; kbd; pad]], Ok (Some pad))
  /\ find_input_device (TStr "wii") (sample_sys [] [[pad; kbd; pad]])
     = (sample_sys [] [], Err ValueError)
  /\ find_input_device (TStr "xbox") (sample_sys [] [[pad; kbd; pad]])
     = (sample_sys [] [], Ok None).
Proof.
  intros kbd pad.
  assert (Hmiss : forall t : string,
            str_in (lower t) (lower (name kbd)) = false -> ~ contains_ci (name kbd) t).
  { intros t Ht H. apply str_in_contains_ci in H. congruence. }
  split; [reflexivity |]. split; [| split].
  - apply (proj1 (find_input_device_cases "NINTENDO" [kbd; pad] [[pad; kbd; pad]]
                    (sample_sys [] [[kbd; pad]; [pad; kbd; pad]]) eq_refl)
             pad [kbd] []).
    + reflexivity.
    + by apply str_in_contains_ci.
    + constructor; [by apply Hmiss | constructor].
    + constructor.
  - apply (proj2 (proj2 (find_input_device_cases "wii" [pad; kbd; pad] []
                    (sample_sys [] [[pad; kbd; pad]]) eq_refl))
             pad pad [] [kbd] []).
    + reflexivity.
    + by apply str_in_contains_ci.
    + by apply str_in_contains_ci.
  - apply (proj1 (proj2 (find_input_device_cases "xbox" [pad; kbd; pad] []
                    (sample_sys [] [[pad; kbd; pad]]) eq_refl))).
    repeat constructor; intros H; apply str_in_contains_ci in H; discriminate.
Defined.

(** ** Losing the connection *)

Lemma collect_likely_err (t : term) (devs acc : list InputDevice) (e : exn) :
  collect_likely t devs acc = Err e -> e = AttributeError.
Proof.
  revert acc. induction devs as [| d devs IH]; intros acc; simpl; [done |].
  destruct t as [search | z]; [apply IH | congruence].
Qed.

Lemma find_input_device_keeps (t : term) (s : Sys) :
  self (find_input_device t s).1 = self s
  /\ (find_input_device t s).2 <> Err OSError.
Proof.
  unfold find_input_device. destruct (scans s) as [| devs later]; [done |].
  destruct (collect_likely t devs []) as [likely | e |] eqn:E.
  - destruct (length likely =? 1)%nat; [by destruct likely |].
    by destruct (2 <=? length likely)%nat.
  - apply collect_likely_err in E as ->. done.
  - done.
Qed.

Lemma load_device_loop_keeps (fuel : nat) (t : term) (s : Sys) :
  self (load_device_loop fuel t s).1 = self s
  /\ (load_device_loop fuel t s).2 <> Err OSError.
Proof.
  revert s. induction fuel as [| fuel IH]; intros s; [done |].
  cbn [load_device_loop]. unfold mbind, M_bind.
  destruct (find_input_device_keeps t s) as [Hself Herr].
  destruct (find_input_device t s) as [s1 [[d |] | e |]]; simpl in *.
  - by split.
  - rewrite <- Hself. apply IH.
  - split; congruence.
  - by split.
Qed.

Lemma load_device_loop_found (search : string) (misses : list (list InputDevice))
    (devs : list InputDevice) (rest : list (list InputDevice))
    (d : InputDevice) (l1 l2 : list InputDevice) (fuel : nat) (s : Sys) :
  scans s = (misses ++ devs :: rest)%list ->
  Forall (Forall (fun x => ~ contains_ci (name x) search)) misses ->
  devs = (l1 ++ d :: l2)%list -> contains_ci (name d) search ->
  Forall (fun x => ~ contains_ci (name x) search) l1 ->
  Forall (fun x => ~ contains_ci (name x) search) l2 ->
  (length misses < fuel)%nat ->
  load_device_loop fuel (TStr search) s = ({| self := self s; scans := rest |}, Ok d).
Proof.
  intros Hs Hmiss -> Hd H1 H2. revert fuel s Hs.
  induction Hmiss as [| m misses Hm _ IH]; intros fuel s Hs Hfuel.
  - destruct fuel as [| fuel]; [simpl in Hfuel; lia |].
    cbn [load_device_loop]. unfold mbind, M_bind.
    by rewrite (find_input_device_unique search d l1 l2 rest s).
  - destruct fuel as [| fuel]; [simpl in Hfuel; lia |].
    cbn [load_device_loop]. unfold mbind, M_bind.
    rewrite (find_input_device_none search m _ s Hs Hm).
    rewrite (IH fuel); [done | done | simpl in Hfuel; lia].
Qed.

Lemma load_device_unfold (t : term) (s : Sys) :
  load_device t s =
  match load_device_loop (S (length (scans s))) t s with
  | (s1, Ok d) => ({| self := set_device (Some d) (self s1); scans := scans s1 |}, Ok tt)
  | (s1, Err e) => (s1, Err e)
  | (s1, Blocked) => (s1, Blocked)
  end.
Proof. reflexivity. Qed.

Lemma read_loop_fail (s : Sys) (dev : InputDevice) (later : list ReadOutcome) :
  device (self s) = Some dev -> pending dev = Fail :: later ->
  read_loop s =
  match load_device (device_search_term (self s)) (consumed dev later s) with
  | (s1, Ok _) => (s1, Ok (None, PyNone))
  | (s1, Err e) => (s1, Err e)
  | (s1, Blocked) => (s1, Blocked)
  end.
Proof.
  intros Hdev Hpend.
  unfold read_loop, mbind, M_bind, get_self, modify_self, mret, M_ret.
  rewrite Hdev, Hpend. fold (consumed dev later s).
  by destruct (load_device _ _) as [s1 [[] | e |]].
Qed.

Lemma update_state_from_loop_fail (s : Sys) (dev : InputDevice)
    (later : list ReadOutcome) :
  device (self s) = Some dev -> pending dev = Fail :: later ->
  update_state_from_loop s =
  match load_device_loop (S (length (scans s))) (device_search_term (self s))
          (consumed dev later s) with
  | (s1, Ok d) =>
      (recorded None PyNone
         {| self := set_device (Some d) (self s1); scans := scans s1 |}, Ok tt)
  | (s1, Err e) => (s1, Err e)
  | (s1, Blocked) => (s1, Blocked)
  end.
Proof.
  intros Hdev Hpend. unfold update_state_from_loop, mbind, M_bind.
  rewrite (read_loop_fail s dev later Hdev Hpend), load_device_unfold.
  cbn [scans consumed].
  destruct (load_device_loop _ _ _) as [s1 [d | e |]]; [| done | done].
  by rewrite apply_event_unfold.
Qed.

(** C9: when the read raises OSError, [update_state_from_loop] does not
    raise it; the object is left with [angle], [throttle], [drive_mode],
    [recording] and [throttle_scale] as they were, whatever [load_device]
    does; and once an enumeration shows exactly one matching device, after
    any number of enumerations showing none, the call returns with that
    device installed and only [(None, None)] recorded. *)
Theorem connection_lost_recovered (s : Sys) (dev : InputDevice)
    (later : list ReadOutcome) :
  device (self s) = Some dev -> pending dev = Fail :: later ->
  let r := update_state_from_loop s in
  r.2 <> Err OSError
  /\ controls (self r.1) = controls (self s)
  /\ (forall (search : string) (misses : list (list InputDevice))
        (rest : list (list InputDevice)) (d : InputDevice) (l1 l2 : list InputDevice),
        device_search_term (self s) = TStr search ->
        scans s = (misses ++ (l1 ++ d :: l2) :: rest)%list ->
        Forall (Forall (fun x => ~ contains_ci (name x) search)) misses ->
        contains_ci (name d) search ->
        Forall (fun x => ~ contains_ci (name x) search) l1 ->
        Forall (fun x => ~ contains_ci (name x) search) l2 ->
        r = ({| self := set_state (<[None := PyNone]> (state (self s)))
                          (set_device (Some d) (self s));
                scans := rest |}, Ok tt)).
Proof.
  intros Hdev Hpend r. subst r.
  rewrite (update_state_from_loop_fail s dev later Hdev Hpend).
  set (s0 := consumed dev later s).
  set (fuel := S (length (scans s))).
  destruct (load_device_loop_keeps fuel (device_search_term (self s)) s0)
    as [Hself Herr].
  split; [| split].
  - destruct (load_device_loop _ _ s0) as [s1 [d | e |]]; simpl in *;
      [done | congruence | done].
  - destruct (load_device_loop _ _ s0) as [s1 [d | e |]]; simpl in *;
      unfold controls; simpl; by rewrite Hself.
  - intros search misses rest d l1 l2 Hterm Hscans Hmiss Hd H1 H2.
    rewrite Hterm.
    rewrite (load_device_loop_found search misses (l1 ++ d :: l2)%list rest
               d l1 l2 fuel s0); try done.
    subst fuel. rewrite Hscans, length_app. lia.
Qed.

Lemma connection_lost_recovered_witness :
  let key := {| ev_type := 1; ev_code := 304; ev_value := 1 |} in
  let kbd := {| name := "AT Translated Set 2 keyboard";
                path := "/dev/input/event0"; pending := [] |} in
  let s := sample_sys [Fail] [[kbd]; []; [kbd; sample_device [Yield key]]; []] in
  device (self s) = Some (sample_device [Fail])
  /\ pending (sample_device [Fail]) = Fail :: []
  /\ (update_state_from_loop s).2 = Ok tt
  /\ controls (self (update_state_from_loop s).1) = controls (self s)
  /\ device (self (update_state_from_loop s).1) = Some (sample_device [Yield key])
  /\ (update_state_from_loop;; update_state_from_loop;; run_threaded) s
     = ({| self := set_device (Some (sample_device []))
             (set_drive_mode {| saved := drive_modes; pos := 2 |} "local_angle"
               (set_state (<[Some "A" := PyInt 1]> (<[None := PyNone]> ∅))
                  (sample_self []))) ;
           scans := [[]] |},
        Ok (PyFloat 0, 0%float, "local_angle", true)).
Proof.
  intros key kbd s.
  assert (Hmiss : ~ contains_ci (name kbd) "Nintendo").
  { intros H. apply str_in_contains_ci in H. discriminate. }
  pose proof (connection_lost_recovered s (sample_device [Fail]) [] eq_refl eq_refl)
    as (Hnot & Hsame & Hback).
  specialize (Hback "Nintendo" [[kbd]; []] [[]] (sample_device [Yield key]) [kbd] []
                eq_refl eq_refl).
  rewrite Hback.
  - repeat split; reflexivity.
  - repeat constructor. exact Hmiss.
  - by apply str_in_contains_ci.
  - repeat constructor. exact Hmiss.
  - constructor.
Defined.

(** ** Construction *)

Lemma init_unfold (event_input_device : option InputDevice) (cfg : Config)
    (search : option string) (verb : bool) (env : list (list InputDevice)) :
  init event_input_device cfg search verb env =
  match event_input_device with
  | None =>
      match load_device_loop (S (length env))
              (device_search_term (fresh cfg search verb))
              {| self := fresh cfg search verb; scans := env |} with
      | (s, Ok d) => (scans s, Ok (set_device (Some d) (self s)))
      | (s, Err e) => (scans s, Err e)
      | (s, Blocked) => (scans s, Blocked)
      end
  | Some d => (env, Ok (set_device (Some d) (fresh cfg search verb)))
  end.
Proof.
  unfold init. cbn [cycle_next mk_cycle saved pos lookup list_lookup].
  destruct event_input_device as [d |]; [done |].
  rewrite load_device_unfold. cbn [scans].
  by destruct (load_device_loop _ _ _) as [s [d | e |]].
Qed.

(** C10: the constructor, given a device, returns; and the object any
    constructor call returns has [angle] 0.0, [throttle] 0.0, [drive_mode]
    "user", [recording] True and [throttle_scale] 1.0, these being the
    first elements of the cycles user, local_angle, local and True, False,
    with both iterators standing at their second element. *)
Theorem init_control_state (event_input_device : option InputDevice) (cfg : Config)
    (search : option string) (verb : bool) (env : list (list InputDevice)) :
  (forall d, event_input_device = Some d ->
     exists c, init event_input_device cfg search verb env = (env, Ok c))
  /\ (forall c,
        (init event_input_device cfg search verb env).2 = Ok c ->
        angle c = PyFloat 0
        /\ throttle c = 0%float
        /\ drive_mode c = "user"
        /\ recording c = true
        /\ throttle_scale c = 1%float
        /\ saved (drive_mode_toggle c) = ["user"; "local_angle"; "local"]
        /\ head (saved (drive_mode_toggle c)) = Some (drive_mode c)
        /\ pos (drive_mode_toggle c) = 1%nat
        /\ saved (recording_toggle c) = [true; false]
        /\ head (saved (recording_toggle c)) = Some (recording c)
        /\ pos (recording_toggle c) = 1%nat
        /\ state c = ∅).
Proof.
  rewrite init_unfold. split.
  - intros d ->. by eexists.
  - intros c. destruct event_input_device as [d |].
    + intros [= <-]. by repeat split.
    + destruct (load_device_loop_keeps (S (length env))
                  (device_search_term (fresh cfg search verb))
                  {| self := fresh cfg search verb; scans := env |}) as [Hself _].
      destruct (load_device_loop _ _ _) as [s [d | e |]]; simpl in *;
        [| done | done].
      intros [= <-]. rewrite Hself. by repeat split.
Qed.

Lemma init_control_state_witness :
  let pad := sample_device [] in
  (init None sample_config (Some "wii") true [[]; [pad]; []]).2
    = Ok (set_device (Some pad) (fresh sample_config (Some "wii") true))
  /\ drive_mode (set_device (Some pad) (fresh sample_config (Some "wii") true)) = "user"
  /\ recording (set_device (Some pad) (fresh sample_config (Some "wii") true)) = true
  /\ throttle_scale (set_device (Some pad) (fresh sample_config (Some "wii") true)) = 1%float.
Proof.
  intros pad.
  assert (Hinit : (init None sample_config (Some "wii") true [[]; [pad]; []]).2
            = Ok (set_device (Some pad) (fresh sample_config (Some "wii") true)))
    by reflexivity.
  split; [exact Hinit |].
  destruct (proj2 (init_control_state None sample_config (Some "wii") true
                     [[]; [pad]; []]) _ Hinit)
    as (_ & _ & Hm & Hr & Hs & _).
  split; [exact Hm |]. split; [exact Hr | exact Hs].
Defined.


(** ** The invariant holds in every state a session reaches *)

Lemma fresh_wf (cfg : Config) (search : option string) (verb : bool) :
  wf (fresh cfg search verb).
Proof. split; simpl; first [reflexivity | lia]. Qed.

Lemma set_device_wf (c : BluetoothGameController) (d : option InputDevice) :
  wf c -> wf (set_device d c).
Proof. intros []. by split. Qed.

Lemma init_wf (event_input_device : option InputDevice) (cfg : Config)
    (search : option string) (verb : bool) (env : list (list InputDevice))
    (c : BluetoothGameController) :
  (init event_input_device cfg search verb env).2 = Ok c -> wf c.
Proof.
  rewrite init_unfold. destruct event_input_device as [d |].
  - intros [= <-]. apply set_device_wf, fresh_wf.
  - destruct (load_device_loop_keeps (S (length env))
                (device_search_term (fresh cfg search verb))
                {| self := fresh cfg search verb; scans := env |}) as [Hself _].
    destruct (load_device_loop _ _ _) as [s [d | e |]]; simpl in *; [| done | done].
    intros [= <-]. rewrite Hself. apply set_device_wf, fresh_wf.
Qed.

Lemma apply_event_wf (btn : option string) (val : pyval) (s : Sys) :
  wf (self s) -> wf (self (apply_event btn val s).1).
Proof.
  intros Hwf. apply (recorded_wf btn val) in Hwf.
  rewrite apply_event_unfold.
  destruct btn as [b |]; simpl; [| done].
  destruct (func_map !! b) as [f |] eqn:Hf; [| done].
  set (s1 := recorded (Some b) val s) in *.
  destruct (func_map_lookup b f Hf)
    as [[_ ->] | [[_ ->] | [[_ ->] | [[_ ->] | [[_ ->] | [_ ->]]]]]].
  - destruct Hwf. by split.
  - unfold update_throttle, mbind, M_bind, get_self, lift, modify_self.
    destruct (to_float val); [| done | done].
    destruct (py_float (y_axis_direction (self s1))); [| done | done].
    destruct Hwf. by split.
  - destruct (py_eq_one val) eqn:Hval.
    + by destruct (toggle_recording_press val s1 Hwf Hval) as (s2 & -> & Hwf2 & _).
    + unfold toggle_recording. by rewrite Hval.
  - destruct (py_eq_one val) eqn:Hval.
    + by destruct (toggle_drive_mode_press val s1 Hwf Hval) as (s2 & -> & Hwf2 & _).
    + unfold toggle_drive_mode. by rewrite Hval.
  - unfold increment_throttle_scale.
    destruct (py_eq_one val); [by apply set_throttle_scale_wf | done].
  - unfold decrement_throttle_scale.
    destruct (py_eq_one val); [by apply set_throttle_scale_wf | done].
Qed.

Lemma read_loop_wf (s : Sys) : wf (self s) -> wf (self (read_loop s).1).
Proof.
  intros Hwf. destruct (device (self s)) as [dev |] eqn:Hdev.
  - destruct (pending dev) as [| [event |] later] eqn:Hpend.
    + unfold read_loop, mbind, M_bind, get_self. by rewrite Hdev, Hpend.
    + rewrite (read_loop_yield s dev event later Hdev Hpend). cbv zeta.
      assert (wf (self (consumed dev later s))) by by apply set_device_wf.
      destruct (ev_type event =? EV_ABS)%Z; [| done].
      destruct (py_float _) as [m | |]; [| done | done].
      by destruct (py_truediv _ m).
    + rewrite (read_loop_fail s dev later Hdev Hpend), load_device_unfold.
      destruct (load_device_loop_keeps (S (length (scans (consumed dev later s))))
                  (device_search_term (self s)) (consumed dev later s)) as [Hself _].
      assert (wf (self (consumed dev later s))) by by apply set_device_wf.
      destruct (load_device_loop _ _ _) as [s1 [d | e |]]; simpl in *;
        rewrite Hself; [by apply set_device_wf | done | done].
  - unfold read_loop, mbind, M_bind, get_self. by rewrite Hdev.
Qed.

Lemma update_state_from_loop_wf (s : Sys) :
  wf (self s) -> wf (self (update_state_from_loop s).1).
Proof.
  intros Hwf. apply read_loop_wf in Hwf.
  unfold update_state_from_loop, mbind, M_bind.
  destruct (read_loop s) as [s1 [[btn val] | e |]]; [| done | done].
  by apply apply_event_wf.
Qed.

(** * Further properties *)

(** ** load_device *)

Lemma find_input_device_ambiguous (search : string) (d1 d2 : InputDevice)
    (l1 l2 l3 : list InputDevice) (later : list (list InputDevice)) (s : Sys) :
  scans s = (l1 ++ d1 :: l2 ++ d2 :: l3)%list :: later ->
  contains_ci (name d1) search -> contains_ci (name d2) search ->
  find_input_device (TStr search) s = ({| self := self s; scans := later |}, Err ValueError).
Proof.
  intros Hs Hd1 Hd2. rewrite (find_input_device_filter search _ later s Hs).
  apply str_in_contains_ci in Hd1, Hd2.
  rewrite List.filter_app. simpl. rewrite Hd1, List.filter_app. simpl. rewrite Hd2.
  destruct (List.filter _ l1) as [| x [| y l]]; simpl; try done;
    by destruct (List.filter _ l2).
Qed.

(** The retry loop walks over the enumerations that show no matching
    device and then does what [find_input_device] does on the next one. *)
Lemma load_device_loop_skip (search : string) (misses : list (list InputDevice))
    (later : list (list InputDevice)) (fuel : nat) (s : Sys) :
  scans s = (misses ++ later)%list ->
  Forall (Forall (fun x => ~ contains_ci (name x) search)) misses ->
  load_device_loop (length misses + fuel) (TStr search) s
  = load_device_loop fuel (TStr search) {| self := self s; scans := later |}.
Proof.
  intros Hs Hmiss. revert s Hs.
  induction Hmiss as [| m misses Hm _ IH]; intros s Hs.
  - simpl in *. destruct s as [c sc]. simpl in Hs. by subst.
  - simpl length. simpl Nat.add. cbn [load_device_loop]. unfold mbind, M_bind.
    rewrite (find_input_device_none search m _ s Hs Hm).
    by rewrite IH.
Qed.

(** X1: [load_device] retries over any number of enumerations without a
    matching device; at the first one with exactly one match it returns,
    with that device in [self.device], every other attribute as before,
    and the enumerations up to that one used. *)
Theorem load_device_found (search : string) (misses : list (list InputDevice))
    (d : InputDevice) (l1 l2 : list InputDevice)
    (rest : list (list InputDevice)) (s : Sys) :
  scans s = (misses ++ (l1 ++ d :: l2) :: rest)%list ->
  Forall (Forall (fun x => ~ contains_ci (name x) search)) misses ->
  contains_ci (name d) search ->
  Forall (fun x => ~ contains_ci (name x) search) l1 ->
  Forall (fun x => ~ contains_ci (name x) search) l2 ->
  load_device (TStr search) s
  = ({| self := set_device (Some d) (self s); scans := rest |}, Ok tt).
Proof.
  intros Hs Hmiss Hd H1 H2. rewrite load_device_unfold.
  rewrite (load_device_loop_found search misses _ rest d l1 l2 _ s Hs Hmiss eq_refl Hd H1 H2);
    [done |].
  rewrite Hs, length_app. lia.
Qed.

Lemma load_device_found_witness :
  let kbd := {| name := "AT Translated Set 2 keyboard";
                path := "/dev/input/event0"; pending := [] |} in
  let pad := sample_device [] in
  load_device (TStr "nintendo") (sample_sys [Fail] [[]; [kbd]; [kbd; pad]; [pad; pad]])
  = ({| self := sample_self []; scans := [[pad; pad]] |}, Ok tt).
Proof.
  intros kbd pad.
  assert (Hmiss : ~ contains_ci (name kbd) "nintendo").
  { intros H. apply str_in_contains_ci in H. discriminate. }
  apply (load_device_found "nintendo" [[]; [kbd]] pad [kbd] [] [[pad; pad]]
           (sample_sys [Fail] [[]; [kbd]; [kbd; pad]; [pad; pad]])).
  - reflexivity.
  - repeat constructor. exact Hmiss.
  - by apply str_in_contains_ci.
  - repeat constructor. exact Hmiss.
  - constructor.
Defined.

(** X2: an ambiguous enumeration ends the retry loop: when the first
    enumeration with a match shows two or more, [load_device] raises
    ValueError and [self.device] keeps the value it had. *)
Theorem load_device_ambiguous (search : string) (misses : list (list InputDevice))
    (d1 d2 : InputDevice) (l1 l2 l3 : list InputDevice)
    (rest : list (list InputDevice)) (s : Sys) :
  scans s = (misses ++ (l1 ++ d1 :: l2 ++ d2 :: l3) :: rest)%list ->
  Forall (Forall (fun x => ~ contains_ci (name x) search)) misses ->
  contains_ci (name d1) search -> contains_ci (name d2) search ->
  load_device (TStr search) s = ({| self := self s; scans := rest |}, Err ValueError).
Proof.
  intros Hs Hmiss Hd1 Hd2. rewrite load_device_unfold.
  replace (S (length (scans s))) with (length misses + S (S (length rest)))%nat
    by (rewrite Hs, length_app; simpl; lia).
  rewrite (load_device_loop_skip search misses _ _ s Hs Hmiss).
  cbn [load_device_loop]. unfold mbind, M_bind.
  by rewrite (find_input_device_ambiguous search d1 d2 l1 l2 l3 rest).
Qed.

Lemma load_device_ambiguous_witness :
  let pad := sample_device [] in
  load_device (TStr "wii") (sample_sys [Fail] [[]; [pad; pad]; [pad]])
  = (sample_sys [Fail] [[pad]], Err ValueError).
Proof.
  intros pad.
  apply (load_device_ambiguous "wii" [[]] pad pad [] [] [] [[pad]]
           (sample_sys [Fail] [[]; [pad; pad]; [pad]])).
  - reflexivity.
  - repeat constructor.
  - by apply str_in_contains_ci.
  - by apply str_in_contains_ci.
Defined.

(** X3: a missing device is never reported: as long as the enumerations
    show no matching device, [load_device] neither returns nor raises, and
    the object is not touched. *)
Theorem load_device_waits (search : string) (s : Sys) :
  Forall (Forall (fun x => ~ contains_ci (name x) search)) (scans s) ->
  load_device (TStr search) s = ({| self := self s; scans := [] |}, Blocked).
Proof.
  intros Hmiss. rewrite load_device_unfold.
  replace (S (length (scans s))) with (length (scans s) + 1)%nat by lia.
  by rewrite (load_device_loop_skip search (scans s) [] 1 s (eq_sym (app_nil_r _)) Hmiss).
Qed.

Lemma load_device_waits_witness :
  let kbd := {| name := "AT Translated Set 2 keyboard";
                path := "/dev/input/event0"; pending := [] |} in
  load_device (TStr "nintendo") (sample_sys [Fail] [[]; [kbd]; [kbd; kbd]])
  = (sample_sys [Fail] [], Blocked).
Proof.
  intros kbd.
  apply (load_device_waits "nintendo" (sample_sys [Fail] [[]; [kbd]; [kbd; kbd]])).
  repeat constructor; intros H; apply str_in_contains_ci in H; discriminate.
Defined.

(** ** __init__ without a search term *)

Lemma load_device_loop_int (z : Z) (empties : list (list InputDevice))
    (d : InputDevice) (ds : list InputDevice) (rest : list (list InputDevice))
    (fuel : nat) (s : Sys) :
  scans s = (empties ++ (d :: ds) :: rest)%list ->
  Forall (fun l => l = []) empties ->
  (length empties < fuel)%nat ->
  load_device_loop fuel (TInt z) s = ({| self := self s; scans := rest |}, Err AttributeError).
Proof.
  intros Hs Hempty. revert fuel s Hs.
  induction Hempty as [| l empties -> _ IH]; intros fuel s Hs Hfuel;
    (destruct fuel as [| fuel]; [simpl in Hfuel; lia |]);
    cbn [load_device_loop]; unfold mbind, M_bind, find_input_device; rewrite Hs; simpl.
  - done.
  - rewrite (IH fuel); [done | done | simpl in Hfuel; lia].
Qed.

(** X4: constructed without a device, without a search term (None or the
    empty string) and with a configuration that has none either, the
    controller searches with the integer 1280: enumerations that show no
    device at all are retried, and the first one that shows any device
    makes the constructor raise AttributeError. *)
Theorem init_without_search_term (cfg : Config) (search : option string) (verb : bool)
    (empties : list (list InputDevice)) (d : InputDevice) (ds : list InputDevice)
    (rest : list (list InputDevice)) :
  cfg_device_search_term cfg = None ->
  search = None \/ search = Some EmptyString ->
  Forall (fun l => l = []) empties ->
  init None cfg search verb (empties ++ (d :: ds) :: rest) = (rest, Err AttributeError).
Proof.
  intros Hcfg Hsearch Hempty. rewrite init_unfold.
  assert (Hterm : device_search_term (fresh cfg search verb) = TInt 1280).
  { simpl. rewrite Hcfg. by destruct Hsearch as [-> | ->]. }
  rewrite Hterm.
  rewrite (load_device_loop_int 1280 empties d ds rest); [done | done | done |].
  rewrite length_app. simpl. lia.
Qed.

Lemma init_without_search_term_witness :
  let cfg := {| cfg_button_map := ∅; cfg_joystick_max_value := None;
                cfg_device_search_term := None |} in
  init None cfg (Some EmptyString) false [[]; []; [sample_device []]; []]
  = ([[]], Err AttributeError).
Proof.
  intros cfg.
  apply (init_without_search_term cfg (Some EmptyString) false [[]; []]
           (sample_device []) [] [[]]).
  - reflexivity.
  - by right.
  - by repeat constructor.
Defined.

(** ** What one event can change *)

Lemma handler_frame (b : string) (f : pyval -> M unit) (val : pyval) (s : Sys) :
  func_map !! b = Some f ->
  scans (f val s).1 = scans s
  /\ state (self (f val s).1) = state (self s)
  /\ wiring (self (f val s).1) = wiring (self s)
  /\ (b <> "LEFT_STICK_X" -> angle (self (f val s).1) = angle (self s))
  /\ (b <> "LEFT_STICK_Y" -> throttle (self (f val s).1) = throttle (self s))
  /\ (b <> "A" ->
      drive_mode (self (f val s).1) = drive_mode (self s)
      /\ drive_mode_toggle (self (f val s).1) = drive_mode_toggle (self s))
  /\ (b <> "B" ->
      recording (self (f val s).1) = recording (self s)
      /\ recording_toggle (self (f val s).1) = recording_toggle (self s))
  /\ (b <> "PAD_UP" -> b <> "PAD_DOWN" ->
      throttle_scale (self (f val s).1) = throttle_scale (self s)).
Proof.
  intros Hf.
  destruct (func_map_lookup b f Hf)
    as [[-> ->] | [[-> ->] | [[-> ->] | [[-> ->] | [[-> ->] | [-> ->]]]]]].
  - by repeat split.
  - unfold update_throttle, mbind, M_bind, get_self, lift, modify_self.
    destruct (to_float val); [| by repeat split..].
    destruct (py_float (y_axis_direction (self s))); by repeat split.
  - unfold toggle_recording, mbind, M_bind, get_self, modify_self, raise.
    destruct (py_eq_one val); [| by repeat split].
    destruct (cycle_next (recording_toggle (self s))) as [[v t] |]; by repeat split.
  - unfold toggle_drive_mode, mbind, M_bind, get_self, modify_self, raise.
    destruct (py_eq_one val); [| by repeat split].
    destruct (cycle_next (drive_mode_toggle (self s))) as [[v t] |]; by repeat split.
  - unfold increment_throttle_scale, modify_self.
    destruct (py_eq_one val); by repeat split.
  - unfold decrement_throttle_scale, modify_self.
    destruct (py_eq_one val); by repeat split.
Qed.

Lemma apply_event_wiring (btn : option string) (val : pyval) (s : Sys) :
  scans (apply_event btn val s).1 = scans s
  /\ wiring (self (apply_event btn val s).1) = wiring (self s).
Proof.
  rewrite apply_event_unfold.
  destruct btn as [b |]; simpl; [| done].
  destruct (func_map !! b) as [f |] eqn:Hf; [| done].
  destruct (handler_frame b f val (recorded (Some b) val s) Hf) as (Hsc & _ & Hw & _).
  by rewrite Hsc, Hw.
Qed.

(** X5: one event changes at most the attribute of its own button, beside
    the entry recorded in [self.state]: only LEFT_STICK_X can change
    [angle], only LEFT_STICK_Y [throttle], only A [drive_mode] and its
    iterator, only B [recording] and its iterator, only PAD_UP and PAD_DOWN
    [throttle_scale]; the device, the button map, the constants and the
    environment are never changed. This holds whether or not the handler
    raises. *)
Theorem apply_event_frame (btn : option string) (val : pyval) (s : Sys) :
  let s' := (apply_event btn val s).1 in
  scans s' = scans s
  /\ wiring (self s') = wiring (self s)
  /\ (btn <> Some "LEFT_STICK_X" -> angle (self s') = angle (self s))
  /\ (btn <> Some "LEFT_STICK_Y" -> throttle (self s') = throttle (self s))
  /\ (btn <> Some "A" ->
      drive_mode (self s') = drive_mode (self s)
      /\ drive_mode_toggle (self s') = drive_mode_toggle (self s))
  /\ (btn <> Some "B" ->
      recording (self s') = recording (self s)
      /\ recording_toggle (self s') = recording_toggle (self s))
  /\ (btn <> Some "PAD_UP" -> btn <> Some "PAD_DOWN" ->
      throttle_scale (self s') = throttle_scale (self s)).
Proof.
  intros s'. subst s'. rewrite apply_event_unfold.
  destruct btn as [b |]; simpl; [| by repeat split].
  destruct (func_map !! b) as [f |] eqn:Hf; [| by repeat split].
  destruct (handler_frame b f val (recorded (Some b) val s) Hf)
    as (Hsc & _ & Hw & Ha & Ht & Hm & Hr & Hs).
  rewrite Hsc, Hw.
  split; [done |]. split; [done |]. split; [| split; [| split; [| split]]].
  - intros Hb. rewrite Ha; [done | congruence].
  - intros Hb. rewrite Ht; [done | congruence].
  - intros Hb. apply Hm. congruence.
  - intros Hb. apply Hr. congruence.
  - intros Hb1 Hb2. rewrite Hs; [done | congruence | congruence].
Qed.

(** ** The recorded values *)



(** ** Buttons without a handler *)

Lemma func_map_unhandled (b : string) : b ∉ handled -> func_map !! b = None.
Proof.
  intros Hb. unfold func_map.
  rewrite !lookup_insert_ne; [apply lookup_empty | ..];
    intros <-; apply Hb; unfold handled; set_solver.
Qed.

(** X7: a button name outside the six handled ones is recorded and nothing
    else happens: the call returns, and the object differs from the old
    one in the new entry of [self.state] only. *)
Theorem apply_event_unhandled (b : string) (val : pyval) (s : Sys) :
  b ∉ handled ->
  apply_event (Some b) val s
  = ({| self := set_state (<[Some b := val]> (state (self s))) (self s);
        scans := scans s |}, Ok tt).
Proof.
  intros Hb. rewrite apply_event_unfold.
  change (Some b ≫= (func_map !!.)) with (func_map !! b).
  by rewrite (func_map_unhandled b Hb).
Qed.

Lemma apply_event_unhandled_witness :
  apply_event (Some "RIGHT_STICK_X") (PyFloat 0.5) (sample_sys [] [])
  = ({| self := set_state (<[Some "RIGHT_STICK_X" := PyFloat 0.5]> ∅) (sample_self []);
        scans := [] |}, Ok tt).
Proof.
  apply (apply_event_unhandled "RIGHT_STICK_X" (PyFloat 0.5) (sample_sys [] [])).
  unfold handled. intros H. repeat (apply elem_of_cons in H as [H | H]; [discriminate |]).
  by apply elem_of_nil in H.
Defined.

(** ** One poll: read, translate, apply *)

Lemma read_loop_translated (s : Sys) (dev : InputDevice) (event : RawEvent)
    (later : list ReadOutcome) :
  device (self s) = Some dev -> pending dev = Yield event :: later ->
  scalable (self s) event ->
  read_loop s = (consumed dev later s, Ok (translated (self s) event)).
Proof.
  intros Hdev Hpend Hsc. rewrite (read_loop_yield s dev event later Hdev Hpend).
  unfold translated. cbv zeta.
  destruct (ev_type event =? EV_ABS)%Z eqn:Hty; [| done].
  apply Z.eqb_eq in Hty. destruct (Hsc Hty) as (Hv & Hm0 & Hm).
  rewrite (py_float_small _ Hm).
  unfold py_truediv, to_float, mbind, result_bind.
  by rewrite (py_float_small _ Hv), (Z2F_nonzero _ Hm0 Hm).
Qed.

Lemma update_state_from_loop_yield (s : Sys) (dev : InputDevice) (event : RawEvent)
    (later : list ReadOutcome) :
  device (self s) = Some dev -> pending dev = Yield event :: later ->
  scalable (self s) event ->
  update_state_from_loop s
  = apply_event (translated (self s) event).1 (translated (self s) event).2
      (consumed dev later s).
Proof.
  intros Hdev Hpend Hsc. unfold update_state_from_loop, mbind, M_bind.
  rewrite (read_loop_translated s dev event later Hdev Hpend Hsc).
  by destruct (translated (self s) event).
Qed.

(** X8: an event whose code is not in the button map changes nothing but
    the entry of [self.state] under None (and the device's queue): the poll
    returns and no control attribute moves. The value stored is the
    translated one, so an EV_ABS value is divided by [joystick_max_value]
    although it belongs to no button. *)
Theorem poll_unmapped_code (s : Sys) (dev : InputDevice) (event : RawEvent)
    (later : list ReadOutcome) :
  device (self s) = Some dev -> pending dev = Yield event :: later ->
  scalable (self s) event ->
  btn_map (self s) !! ev_code event = None ->
  update_state_from_loop s
  = (recorded None (translated (self s) event).2 (consumed dev later s), Ok tt)
  /\ controls (self (update_state_from_loop s).1) = controls (self s).
Proof.
  intros Hdev Hpend Hsc Hcode.
  rewrite (update_state_from_loop_yield s dev event later Hdev Hpend Hsc).
  assert (Hbtn : (translated (self s) event).1 = None) by exact Hcode.
  rewrite Hbtn. by rewrite apply_event_unfold.
Qed.

Lemma poll_unmapped_code_witness :
  let event := {| ev_type := EV_ABS; ev_code := 5; ev_value := 320 |} in
  update_state_from_loop (sample_sys [Yield event] [])
  = ({| self := set_state (<[None := PyFloat 0.25]> ∅) (sample_self []);
        scans := [] |}, Ok tt).
Proof.
  intros event.
  assert (Hsc : scalable (sample_self [Yield event]) event).
  { intros _. split; [reflexivity |]. split; [discriminate | reflexivity]. }
  apply (proj1 (poll_unmapped_code (sample_sys [Yield event] [])
                  (sample_device [Yield event]) event [] eq_refl eq_refl Hsc eq_refl)).
Defined.

(** X9: the two sticks end to end. An EV_ABS event with value [v] on the
    code of LEFT_STICK_X leaves [angle] at the float quotient of [v] by
    [joystick_max_value]; on the code of LEFT_STICK_Y it leaves [throttle]
    at that quotient times [throttle_scale] times -1. Neither is clamped or
    filtered: a value beyond [joystick_max_value] gives an angle beyond 1. *)
Theorem poll_sticks (s : Sys) (dev : InputDevice) (event : RawEvent)
    (later : list ReadOutcome) :
  device (self s) = Some dev -> pending dev = Yield event :: later ->
  ev_type event = EV_ABS ->
  Z.abs (ev_value event) < 2 ^ 53 ->
  joystick_max_value (self s) <> 0 -> Z.abs (joystick_max_value (self s)) < 2 ^ 53 ->
  wf (self s) ->
  let q := (Z2F (ev_value event) / Z2F (joystick_max_value (self s)))%float in
  (btn_map (self s) !! ev_code event = Some "LEFT_STICK_X" ->
   (update_state_from_loop s).2 = Ok tt
   /\ angle (self (update_state_from_loop s).1) = PyFloat q
   /\ throttle (self (update_state_from_loop s).1) = throttle (self s))
  /\ (btn_map (self s) !! ev_code event = Some "LEFT_STICK_Y" ->
      (update_state_from_loop s).2 = Ok tt
      /\ throttle (self (update_state_from_loop s).1)
         = (q * throttle_scale (self s) * -1)%float
      /\ angle (self (update_state_from_loop s).1) = angle (self s)).
Proof.
  intros Hdev Hpend Hty Hv Hm0 Hm Hwf q.
  assert (Hsc : scalable (self s) event) by (by intros _).
  rewrite (update_state_from_loop_yield s dev event later Hdev Hpend Hsc).
  unfold translated. rewrite Hty, Z.eqb_refl. fold q. cbn [fst snd].
  split; intros ->.
  - by rewrite apply_event_unfold.
  - rewrite (apply_event_handler _ _ _ _ func_map_Y).
    rewrite (update_throttle_wf (PyFloat q) q); [done | | done].
    by apply recorded_wf, set_device_wf.
Qed.

Lemma poll_sticks_witness :
  let event := {| ev_type := EV_ABS; ev_code := 0; ev_value := 2560 |} in
  (update_state_from_loop (sample_sys [Yield event] [])).2 = Ok tt
  /\ angle (self (update_state_from_loop (sample_sys [Yield event] [])).1) = PyFloat 2
  /\ throttle (self (update_state_from_loop (sample_sys [Yield event] [])).1) = 0%float.
Proof.
  intros event.
  apply (proj1 (poll_sticks (sample_sys [Yield event] []) (sample_device [Yield event])
                  event [] eq_refl eq_refl eq_refl
                  ltac:(reflexivity) ltac:(discriminate) ltac:(reflexivity)
                  (sample_self_wf [Yield event]))).
  reflexivity.
Defined.

(** ** read_loop touches the device only *)

Lemma load_device_keeps (t : term) (s : Sys) :
  set_device None (self (load_device t s).1) = set_device None (self s)
  /\ (load_device t s).2 <> Err OSError.
Proof.
  rewrite load_device_unfold.
  destruct (load_device_loop_keeps (S (length (scans s))) t s) as [Hself Herr].
  destruct (load_device_loop _ t s) as [s1 [d | e |]]; simpl in *.
  - by rewrite Hself.
  - rewrite Hself. split; congruence.
  - by rewrite Hself.
Qed.

Lemma read_loop_keeps (s : Sys) :
  set_device None (self (read_loop s).1) = set_device None (self s)
  /\ (read_loop s).2 <> Err OSError.
Proof.
  destruct (device (self s)) as [dev |] eqn:Hdev.
  - destruct (pending dev) as [| [event |] later] eqn:Hpend.
    + unfold read_loop, mbind, M_bind, get_self. by rewrite Hdev, Hpend.
    + rewrite (read_loop_yield s dev event later Hdev Hpend). cbv zeta.
      destruct (ev_type event =? EV_ABS)%Z; [| done].
      destruct (py_float _) as [m | e |] eqn:Hm; [| | done].
      * unfold py_truediv, to_float, mbind, result_bind.
        destruct (py_float (ev_value event)) as [a | e |] eqn:Hv; [| | done].
        -- by destruct (m =? 0)%float.
        -- unfold py_float in Hv.
           destruct (binary_normalize _ _ _ _ _); simplify_eq; done.
      * unfold py_float in Hm.
        destruct (binary_normalize _ _ _ _ _); simplify_eq; done.
    + rewrite (read_loop_fail s dev later Hdev Hpend).
      destruct (load_device_keeps (device_search_term (self s)) (consumed dev later s))
        as [Hself Herr].
      destruct (load_device _ _) as [s1 [[] | e |]]; simpl in *;
        (split; [by rewrite Hself | congruence]).
  - unfold read_loop, mbind, M_bind, get_self. by rewrite Hdev.
Qed.


(** ** The invariant along a session *)

Lemma update_wf (fuel : nat) (s : Sys) : wf (self s) -> wf (self (update fuel s).1).
Proof.
  revert s. induction fuel as [| fuel IH]; intros s Hwf; [done |].
  cbn [update]. unfold mbind, M_bind.
  apply update_state_from_loop_wf in Hwf.
  destruct (update_state_from_loop s) as [s1 [[] | e |]]; [by apply IH | done | done].
Qed.

Lemma run_events_wf (events : list (option string * pyval)) (s : Sys) :
  wf (self s) -> wf (self (run_events events s).1).
Proof.
  revert s. induction events as [| [btn val] rest IH]; intros s Hwf; [done |].
  rewrite run_events_cons. apply (apply_event_wf btn val) in Hwf.
  destruct (apply_event btn val s) as [s1 [[] | e |]]; [by apply IH | done | done].
Qed.

(** X11: the invariant of the toggles holds throughout a session. For an
    object that [__init__] returned, after any events delivered to it and
    any number of rounds of [update] on any environment (reconnections and
    raised exceptions included), [drive_mode] is one of user, local_angle,
    local and is the element its iterator yielded last, [recording] is the
    element its iterator yielded last, and the two constants
    [throttle_scale_increment] = 0.05 and [y_axis_direction] = -1 stand. *)
Theorem session_invariant (event_input_device : option InputDevice) (cfg : Config)
    (search : option string) (verb : bool) (env : list (list InputDevice))
    (c : BluetoothGameController) :
  (init event_input_device cfg search verb env).2 = Ok c ->
  forall (events : list (option string * pyval)) (fuel : nat)
         (sc : list (list InputDevice)),
    let s := (update fuel (run_events events {| self := c; scans := sc |}).1).1 in
    wf (self s) /\ drive_mode (self s) ∈ drive_modes.
Proof.
  intros Hinit events fuel sc s.
  assert (Hwf : wf (self s)).
  { apply update_wf, run_events_wf. simpl. by apply init_wf in Hinit. }
  split; [done |].
  destruct (wf_drive_mode _ Hwf) as [-> | [-> | ->]]; unfold drive_modes; set_solver.
Qed.

Lemma session_invariant_witness :
  let key := {| ev_type := 1; ev_code := 304; ev_value := 1 |} in
  let s := (update 5 (run_events [(Some "A", PyInt 1)]
                        (sample_sys [Yield key; Fail; Yield key] [[]])).1).1 in
  wf (self s) /\ drive_mode (self s) ∈ drive_modes.
Proof.
  intros key.
  apply (session_invariant (Some (sample_device [Yield key; Fail; Yield key]))
           sample_config None false [] (sample_self [Yield key; Fail; Yield key])
           eq_refl [(Some "A", PyInt 1)] 5%nat [[]]).
Defined.

(** ** update: polling a queue of events *)

Lemma handler_device (b : string) (f : pyval -> M unit) (val : pyval)
    (d : option InputDevice) (s : Sys) :
  func_map !! b = Some f ->
  f val (on_self (set_device d) s)
  = (on_self (set_device d) (f val s).1, (f val s).2).
Proof.
  intros Hf.
  destruct (func_map_lookup b f Hf)
    as [[_ ->] | [[_ ->] | [[_ ->] | [[_ ->] | [[_ ->] | [_ ->]]]]]].
  - done.
  - unfold update_throttle, mbind, M_bind, get_self, lift, modify_self, on_self.
    simpl. destruct (to_float val); [| done | done].
    by destruct (py_float (y_axis_direction (self s))).
  - unfold toggle_recording, mbind, M_bind, get_self, modify_self, raise, on_self.
    destruct (py_eq_one val); [| done]. simpl.
    by destruct (cycle_next (recording_toggle (self s))) as [[v t] |].
  - unfold toggle_drive_mode, mbind, M_bind, get_self, modify_self, raise, on_self.
    destruct (py_eq_one val); [| done]. simpl.
    by destruct (cycle_next (drive_mode_toggle (self s))) as [[v t] |].
  - unfold increment_throttle_scale, modify_self, on_self.
    by destruct (py_eq_one val).
  - unfold decrement_throttle_scale, modify_self, on_self.
    by destruct (py_eq_one val).
Qed.

Lemma apply_event_device (btn : option string) (val : pyval)
    (d : option InputDevice) (s : Sys) :
  apply_event btn val (on_self (set_device d) s)
  = (on_self (set_device d) (apply_event btn val s).1, (apply_event btn val s).2).
Proof.
  rewrite !apply_event_unfold.
  destruct btn as [b |]; simpl; [| done].
  destruct (func_map !! b) as [f |] eqn:Hf; [| done].
  apply (handler_device b f val d (recorded (Some b) val s) Hf).
Qed.

Lemma run_events_device (events : list (option string * pyval))
    (d : option InputDevice) (s : Sys) :
  run_events events (on_self (set_device d) s)
  = (on_self (set_device d) (run_events events s).1, (run_events events s).2).
Proof.
  revert s. induction events as [| [btn val] rest IH]; intros s; [done |].
  rewrite !run_events_cons, apply_event_device.
  destruct (apply_event btn val s) as [s1 [[] | e |]]; simpl; [apply IH | done | done].
Qed.

Lemma update_unfold (fuel : nat) (s : Sys) :
  update (S fuel) s =
  match update_state_from_loop s with
  | (s1, Ok _) => update fuel s1
  | (s1, Err e) => (s1, Err e)
  | (s1, Blocked) => (s1, Blocked)
  end.
Proof. reflexivity. Qed.

(** X12: [update] on a device whose queue holds the events [events] and
    nothing more does what delivering their translations one by one does:
    the object ends in the same state (the device's queue apart), an
    exception of a handler leaves [update] at the same event, and when all
    events are applied [update] is waiting for the next one. *)
Theorem update_runs_events (events : list RawEvent) (fuel : nat)
    (dev : InputDevice) (s : Sys) :
  device (self s) = Some dev -> pending dev = map Yield events ->
  Forall (scalable (self s)) events ->
  (length events < fuel)%nat ->
  let r := run_events (map (translated (self s)) events) s in
  on_self (set_device None) (update fuel s).1 = on_self (set_device None) r.1
  /\ (update fuel s).2 = match r.2 with Ok _ => Blocked | other => other end.
Proof.
  revert fuel dev s.
  induction events as [| event rest IH]; intros fuel dev s Hdev Hpend Hsc Hfuel r;
    subst r; (destruct fuel as [| fuel]; [simpl in Hfuel; lia |]);
    rewrite update_unfold.
  - unfold update_state_from_loop, mbind, M_bind, read_loop, mbind, M_bind, get_self.
    by rewrite Hdev, Hpend.
  - apply Forall_cons in Hsc as [Hsc Hrest].
    rewrite (update_state_from_loop_yield s dev event (map Yield rest) Hdev Hpend Hsc).
    cbn [map]. destruct (translated (self s) event) as [btn val] eqn:Htr. cbn [fst snd].
    rewrite run_events_cons.
    set (dev' := {| name := name dev; path := path dev; pending := map Yield rest |}).
    change (consumed dev (map Yield rest) s) with (on_self (set_device (Some dev')) s).
    rewrite apply_event_device.
    destruct (apply_event_wiring btn val s) as (_ & Hw).
    destruct (apply_event btn val s) as [s1 [[] | e |]]; cbn [fst snd] in *;
      [| done | done].
    assert (Hb : btn_map (self s1) = btn_map (self s)) by (unfold wiring in Hw; congruence).
    assert (Hj : joystick_max_value (self s1) = joystick_max_value (self s))
      by (unfold wiring in Hw; congruence).
    destruct (IH fuel dev' (on_self (set_device (Some dev')) s1)) as [Hst Hres].
    + done.
    + done.
    + eapply Forall_impl; [exact Hrest |]. intros ev Hev Hty. simpl. rewrite Hj. by apply Hev.
    + simpl in Hfuel. lia.
    + assert (Hmap : map (translated (self (on_self (set_device (Some dev')) s1))) rest
                     = map (translated (self s)) rest).
      { apply map_ext. intros ev. unfold translated. simpl. by rewrite Hb, Hj. }
      rewrite Hmap, run_events_device in Hst, Hres. cbn [fst snd] in Hst, Hres.
      split; [exact Hst | exact Hres].
Qed.

Lemma update_runs_events_witness :
  let events := [{| ev_type := EV_ABS; ev_code := 1; ev_value := 640 |};
                 {| ev_type := 1; ev_code := 304; ev_value := 1 |};
                 {| ev_type := 1; ev_code := 544; ev_value := 1 |}] in
  (update 4 (sample_sys (map Yield events) [])).2 = Blocked
  /\ controls (self (update 4 (sample_sys (map Yield events) [])).1)
     = (PyFloat 0, (-0.5)%float, "local_angle", true, (1 + 0.05)%float).
Proof.
  intros events.
  assert (Hsc : Forall (scalable (sample_self (map Yield events))) events).
  { unfold events.
    repeat (constructor;
            [intros _; split; [reflexivity |]; split; [discriminate | reflexivity] |]).
    constructor. }
  destruct (update_runs_events events 4 (sample_device (map Yield events))
              (sample_sys (map Yield events) []) eq_refl eq_refl Hsc ltac:(simpl; lia))
    as [Hst Hres].
  split; [exact Hres |].
  exact (f_equal (fun s => controls (self s)) Hst).
Defined.

(** ** run and run_threaded *)


(** ** shutdown *)

Lemma update_state_from_loop_running (s : Sys) :
  running (self (update_state_from_loop s).1) = running (self s).
Proof.
  unfold update_state_from_loop, mbind, M_bind.
  pose proof (f_equal running (proj1 (read_loop_keeps s))) as Hread. simpl in Hread.
  destruct (read_loop s) as [s1 [[btn val] | e |]]; [| done | done].
  destruct (apply_event_wiring btn val s1) as [_ Hw].
  unfold wiring in Hw. simpl in *. congruence.
Qed.

Lemma update_running (fuel : nat) (s : Sys) :
  running (self (update fuel s).1) = running (self s).
Proof.
  revert s. induction fuel as [| fuel IH]; intros s; [done |].
  rewrite update_unfold.
  pose proof (update_state_from_loop_running s) as Hpoll.
  destruct (update_state_from_loop s) as [s1 [[] | e |]]; simpl in *;
    [by rewrite IH | done | done].
Qed.

Lemma run_events_running (events : list (option string * pyval)) (s : Sys) :
  running (self (run_events events s).1) = running (self s).
Proof.
  revert s. induction events as [| [btn val] rest IH]; intros s; [done |].
  rewrite run_events_cons.
  destruct (apply_event_wiring btn val s) as [_ Hw].
  destruct (apply_event btn val s) as [s1 [[] | e |]]; unfold wiring in Hw; simpl in *;
    [rewrite IH | |]; congruence.
Qed.

(** X14: [running] is False from construction on: no event and no poll
    sets it, and nothing reads it. So on an object that [__init__] returned
    and that has been used in any way, [shutdown] changes nothing at all,
    and polling goes on after it exactly as it would have without it. *)
Theorem shutdown_changes_nothing (event_input_device : option InputDevice)
    (cfg : Config) (search : option string) (verb : bool)
    (env : list (list InputDevice)) (c : BluetoothGameController) :
  (init event_input_device cfg search verb env).2 = Ok c ->
  forall (events : list (option string * pyval)) (fuel : nat)
         (sc : list (list InputDevice)),
    let s := (update fuel (run_events events {| self := c; scans := sc |}).1).1 in
    running (self s) = false
    /\ shutdown s = (s, Ok tt)
    /\ (shutdown;; update_state_from_loop) s = update_state_from_loop s.
Proof.
  intros Hinit events fuel sc s.
  assert (Hrun : running (self s) = false).
  { subst s. rewrite update_running, run_events_running. simpl.
    rewrite init_unfold in Hinit. destruct event_input_device as [d |].
    - by injection Hinit as <-.
    - destruct (load_device_loop_keeps (S (length env))
                  (device_search_term (fresh cfg search verb))
                  {| self := fresh cfg search verb; scans := env |}) as [Hself _].
      destruct (load_device_loop _ _ _) as [s1 [d | e |]]; simpl in *; [| done | done].
      injection Hinit as <-. by rewrite Hself. }
  assert (Hshut : shutdown s = (s, Ok tt)).
  { unfold shutdown, modify_self. destruct s as [[] sc']. simpl in Hrun.
    by rewrite Hrun. }
  split; [done |]. split; [done |].
  unfold mbind, M_bind. by rewrite Hshut.
Qed.

Lemma shutdown_changes_nothing_witness :
  let key := {| ev_type := 1; ev_code := 304; ev_value := 1 |} in
  let s := (update 2 (run_events [(Some "B", PyInt 1)]
                        (sample_sys [Yield key] [])).1).1 in
  running (self s) = false /\ shutdown s = (s, Ok tt).
Proof.
  intros key s.
  destruct (shutdown_changes_nothing (Some (sample_device [Yield key]))
              sample_config None false [] (sample_self [Yield key]) eq_refl
              [(Some "B", PyInt 1)] 2%nat []) as (Hr & Hs & _).
  split; [exact Hr | exact Hs].
Defined.

(** ** Which values count as a press *)

Lemma float_eqb_one (f : float) : (f =? 1)%float = true -> f = 1%float.
Proof.
  intros H. rewrite FloatAxioms.eqb_spec in H. apply Prim2SF_inj.
  change (Prim2SF 1) with (S754_finite false 4503599627370496 (-52)) in *.
  unfold SFeqb, SFcompare in H.
  destruct (Prim2SF f) as [sg | sg | | sg m e]; try discriminate.
  - by destruct sg.
  - destruct sg; [discriminate |].
    change IntDef.Z.compare with Z.compare in H.
    change PosDef.Pos.compare_cont with Pos.compare_cont in H.
    destruct (Z.compare e (-52)) eqn:He; try discriminate.
    apply Z.compare_eq in He as ->.
    destruct (Pos.compare_cont Eq m 4503599627370496) eqn:Hm; try discriminate.
    by apply Pos.compare_eq in Hm as ->.
Qed.

Lemma py_eq_one_iff (val : pyval) :
  py_eq_one val = true <-> val = PyInt 1 \/ val = PyFloat 1.
Proof.
  split.
  - destruct val as [| z | f]; simpl; [done | |].
    + intros ->%Z.eqb_eq. by left.
    + intros ->%float_eqb_one. by right.
  - by intros [-> | ->].
Qed.

Lemma advance_mode_moves (m : string) :
  m = "user" \/ m = "local_angle" \/ m = "local" -> advance_mode m <> m.
Proof. by intros [-> | [-> | ->]]. Qed.

(** X15: the toggles fire on the integer 1 and on the float 1.0 and on
    nothing else. An A event changes [drive_mode] exactly when its value is
    one of the two, and a B event changes [recording] exactly then; every
    other value (0, 2, -1, 0.999, None) leaves both as they are. *)
Theorem toggles_fire_on_one (val : pyval) (s : Sys) :
  wf (self s) ->
  (drive_mode (self (apply_event (Some "A") val s).1) <> drive_mode (self s)
   <-> val = PyInt 1 \/ val = PyFloat 1)
  /\ (recording (self (apply_event (Some "B") val s).1) <> recording (self s)
      <-> val = PyInt 1 \/ val = PyFloat 1).
Proof.
  intros Hwf. rewrite <- !py_eq_one_iff.
  rewrite (apply_event_handler _ _ _ _ func_map_A),
          (apply_event_handler _ _ _ _ func_map_B).
  destruct (py_eq_one val) eqn:Hval.
  - destruct (toggle_drive_mode_press val (recorded (Some "A") val s))
      as (s1 & -> & _ & Hm); [by apply recorded_wf | done |].
    destruct (toggle_recording_press val (recorded (Some "B") val s))
      as (s2 & -> & _ & Hr); [by apply recorded_wf | done |].
    cbn [fst]. rewrite Hm, Hr. simpl. split; split; try done; intros _.
    + by apply advance_mode_moves, wf_drive_mode.
    + by destruct (recording (self s)).
  - unfold toggle_drive_mode, toggle_recording. rewrite Hval. simpl.
    split; split; done.
Qed.

Lemma toggles_fire_on_one_witness :
  drive_mode (self (apply_event (Some "A") (PyFloat 1) (sample_sys [] [])).1)
    <> drive_mode (self (sample_sys [] []))
  /\ ~ (recording (self (apply_event (Some "B") (PyInt 2) (sample_sys [] [])).1)
        <> recording (self (sample_sys [] []))).
Proof.
  split.
  - apply (proj1 (toggles_fire_on_one (PyFloat 1) (sample_sys [] []) (sample_self_wf []))).
    by right.
  - rewrite (proj2 (toggles_fire_on_one (PyInt 2) (sample_sys [] []) (sample_self_wf []))).
    by intros [? | ?].
Defined.

(** ** profile *)

Lemma consumed_same (dev : InputDevice) (s : Sys) :
  device (self s) = Some dev -> consumed dev (pending dev) s = s.
Proof.
  destruct s as [c sc], c, dev. simpl. intros ->. reflexivity.
Qed.

Lemma profile_loop_unfold (now : nat -> float) (fuel : nat) (event_total : Z)
    (start_time : float) (results : list float) (tick : nat) (s : Sys) :
  profile_loop now (S fuel) event_total start_time results tick s =
  match read_loop s with
  | (s1, Ok _) =>
      if (1000 <? event_total + 1)%Z then
        match py_truediv (PyInt (event_total + 1)) (now tick - start_time)%float with
        | Ok rate =>
            if (9 <? length (results ++ [rate]))%nat
            then (s1, Ok (results ++ [rate])%list)
            else profile_loop now fuel 0 (now (S tick)) (results ++ [rate])%list
                   (S (S tick)) s1
        | Err e => (s1, Err e)
        | Blocked => (s1, Blocked)
        end
      else profile_loop now fuel (event_total + 1) start_time results tick s1
  | (s1, Err e) => (s1, Err e)
  | (s1, Blocked) => (s1, Blocked)
  end.
Proof.
  cbn [profile_loop]. unfold mbind, M_bind, lift.
  destruct (read_loop s) as [s1 [[btn val] | e |]]; [| done | done].
  destruct (1000 <? event_total + 1)%Z; [| done].
  destruct (py_truediv _ _) as [rate | e |]; [| done | done].
  by destruct (9 <? length (results ++ [rate]))%nat.
Qed.

(** Reads inside a window: the counter moves, nothing else happens. *)
Lemma profile_loop_reads (now : nat -> float) (events : list RawEvent) :
  forall (fuel : nat) (event_total : Z) (start_time : float) (results : list float)
         (tick : nat) (dev : InputDevice) (later : list ReadOutcome) (s : Sys),
    device (self s) = Some dev -> pending dev = (map Yield events ++ later)%list ->
    Forall (scalable (self s)) events ->
    event_total + Z.of_nat (length events) <= 1000 ->
    profile_loop now (length events + fuel) event_total start_time results tick s
    = profile_loop now fuel (event_total + Z.of_nat (length events)) start_time
        results tick (consumed dev later s).
Proof.
  induction events as [| event rest IH];
    intros fuel event_total start_time results tick dev later s Hdev Hpend Hsc Hle.
  - simpl in *. rewrite Z.add_0_r, <- Hpend. by rewrite consumed_same.
  - apply Forall_cons in Hsc as [Hev Hrest].
    simpl length in *. simpl Nat.add. rewrite profile_loop_unfold.
    rewrite (read_loop_translated s dev event (map Yield rest ++ later)%list
               Hdev Hpend Hev).
    destruct (Z.ltb_spec 1000 (event_total + 1)) as [Hlt | _]; [lia |].
    rewrite (IH fuel (event_total + 1) start_time results tick
               {| name := name dev; path := path dev;
                  pending := (map Yield rest ++ later)%list |} later
               (consumed dev (map Yield rest ++ later) s)); [| done | done | done | lia].
    f_equal. lia.
Qed.

(** The read that closes a window. *)
Lemma profile_loop_close (now : nat -> float) (fuel : nat) (start_time : float)
    (results : list float) (tick : nat) (dev : InputDevice) (event : RawEvent)
    (later : list ReadOutcome) (s : Sys) :
  device (self s) = Some dev -> pending dev = Yield event :: later ->
  scalable (self s) event ->
  profile_loop now (S fuel) 1000 start_time results tick s =
  if (now tick - start_time =? 0)%float then (consumed dev later s, Err ZeroDivisionError)
  else
    let rate := (Z2F 1001 / (now tick - start_time))%float in
    if (9 <? length (results ++ [rate]))%nat
    then (consumed dev later s, Ok (results ++ [rate])%list)
    else profile_loop now fuel 0 (now (S tick)) (results ++ [rate])%list (S (S tick))
           (consumed dev later s).
Proof.
  intros Hdev Hpend Hsc. rewrite profile_loop_unfold.
  rewrite (read_loop_translated s dev event later Hdev Hpend Hsc).
  change (1000 <? 1000 + 1)%Z with true. cbv iota.
  unfold py_truediv, to_float, mbind, result_bind.
  change (py_float (1000 + 1)) with (Ok (Z2F 1001)).
  by destruct (now tick - start_time =? 0)%float.
Qed.

(** A whole window: 1001 reads, then the rate, and the tenth rate ends
    the loop. *)
Lemma profile_loop_window (now : nat -> float) (events : list RawEvent) (fuel : nat)
    (start_time : float) (results : list float) (tick : nat) (dev : InputDevice)
    (later : list ReadOutcome) (s : Sys) :
  length events = 1001%nat ->
  device (self s) = Some dev -> pending dev = (map Yield events ++ later)%list ->
  Forall (scalable (self s)) events ->
  profile_loop now (1001 + fuel) 0 start_time results tick s =
  if (now tick - start_time =? 0)%float then (consumed dev later s, Err ZeroDivisionError)
  else
    let rate := (Z2F 1001 / (now tick - start_time))%float in
    if (9 <? length (results ++ [rate]))%nat
    then (consumed dev later s, Ok (results ++ [rate])%list)
    else profile_loop now fuel 0 (now (S tick)) (results ++ [rate])%list (S (S tick))
           (consumed dev later s).
Proof.
  intros Hlen Hdev Hpend Hsc.
  assert (Hsplit : exists front event, events = (front ++ [event])%list
                                       /\ length front = 1000%nat).
  { exists (take 1000 events).
    destruct (drop 1000 events) as [| event [| ? ?]] eqn:Hdrop.
    - apply (f_equal length) in Hdrop. rewrite length_drop, Hlen in Hdrop.
      simpl length in Hdrop. lia.
    - exists event. rewrite <- Hdrop, take_drop. split; [done |].
      rewrite length_take, Hlen. lia.
    - apply (f_equal length) in Hdrop. rewrite length_drop, Hlen in Hdrop.
      simpl length in Hdrop. lia. }
  destruct Hsplit as (front & event & -> & Hfront).
  apply Forall_app in Hsc as [Hsc1 Hsc2]. rewrite Forall_singleton in Hsc2.
  rewrite map_app, <- app_assoc in Hpend. simpl in Hpend.
  replace (1001 + fuel)%nat with (length front + S fuel)%nat by (rewrite Hfront; lia).
  rewrite (profile_loop_reads now front (S fuel) 0 start_time results tick dev
             (Yield event :: later) s Hdev Hpend Hsc1); [| rewrite Hfront; lia].
  replace (0 + Z.of_nat (length front)) with 1000 by (rewrite Hfront; lia).
  apply (profile_loop_close now fuel start_time results tick
           {| name := name dev; path := path dev; pending := Yield event :: later |}
           event later (consumed dev (Yield event :: later) s));
    [reflexivity | reflexivity | exact Hsc2].
Qed.





Lemma py_truediv_err (v : pyval) (d : float) : py_truediv v d <> Err OSError.
Proof.
  unfold py_truediv, to_float, mbind, result_bind.
  destruct v as [| z | f]; [done | |].
  - unfold py_float. destruct (binary_normalize _ _ _ _ _); try done;
      by destruct (d =? 0)%float.
  - by destruct (d =? 0)%float.
Qed.

Lemma profile_loop_keeps (now : nat -> float) (fuel : nat) :
  forall (event_total : Z) (start_time : float) (results : list float) (tick : nat)
         (s : Sys),
    set_device None
      (self (profile_loop now fuel event_total start_time results tick s).1)
    = set_device None (self s)
    /\ (profile_loop now fuel event_total start_time results tick s).2 <> Err OSError.
Proof.
  induction fuel as [| fuel IH]; intros event_total start_time results tick s; [done |].
  rewrite profile_loop_unfold.
  destruct (read_loop_keeps s) as [Hself Herr].
  destruct (read_loop s) as [s1 [[btn val] | e |]]; simpl in Hself, Herr;
    [| split; [done | simpl; congruence] | done].
  destruct (1000 <? event_total + 1)%Z.
  - pose proof (py_truediv_err (PyInt (event_total + 1)) (now tick - start_time)%float)
      as Hdiv.
    destruct (py_truediv _ _) as [rate | e |];
      [| split; [done | simpl; congruence] | done].
    destruct (9 <? length (results ++ [rate]))%nat; [done |].
    rewrite <- Hself. apply IH.
  - rewrite <- Hself. apply IH.
Qed.

(** X16: [profile] is diagnostic only: whatever the device delivers and
    whatever the clock shows, it assigns no attribute but [self.device]
    (no event it reads is applied to the control state), and it never lets
    an OSError out. *)
Theorem profile_frame (now : nat -> float) (s : Sys) :
  set_device None (self (profile now s).1) = set_device None (self s)
  /\ controls (self (profile now s).1) = controls (self s)
  /\ state (self (profile now s).1) = state (self s)
  /\ (profile now s).2 <> Err OSError.
Proof.
  unfold profile, mbind, M_bind.
  destruct (profile_loop_keeps now (10 * 1001) 0 (now 0%nat) [] 1 s) as [Hself Herr].
  destruct (profile_loop _ _ _ _ _ _ s) as [s1 [results | e |]]; simpl in *.
  - split; [done |].
    split; [exact (f_equal controls Hself) |].
    split; [exact (f_equal state Hself) | done].
  - split; [done |].
    split; [exact (f_equal controls Hself) |].
    split; [exact (f_equal state Hself) | congruence].
  - split; [done |].
    split; [exact (f_equal controls Hself) |].
    split; [exact (f_equal state Hself) | done].
Qed.


(** X18: a clock that shows the same reading at the start and at the end
    of the first window makes [profile] raise ZeroDivisionError, once the
    1001 events of that window are read. *)
Theorem profile_clock_stalled (now : nat -> float) (events : list RawEvent)
    (dev : InputDevice) (later : list ReadOutcome) (s : Sys) :
  device (self s) = Some dev -> pending dev = (map Yield events ++ later)%list ->
  length events = 1001%nat ->
  Forall (scalable (self s)) events ->
  (now 1%nat - now 0%nat =? 0)%float = true ->
  profile now s = (consumed dev later s, Err ZeroDivisionError).
Proof.
  intros Hdev Hpend Hlen Hsc Hclock. unfold profile, mbind, M_bind.
  replace (10 * 1001)%nat with (1001 + 9 * 1001)%nat by lia.
  rewrite (profile_loop_window now events (9 * 1001) (now 0%nat) [] 1 dev later s
             Hlen Hdev Hpend Hsc).
  by rewrite Hclock.
Qed.


Lemma profile_clock_stalled_witness :
  let key := {| ev_type := 1; ev_code := 304; ev_value := 1 |} in
  profile (fun _ => 0%float)
    (sample_sys (map Yield (replicate 1001 key) ++ [Yield key]) [])
  = (sample_sys [Yield key] [], Err ZeroDivisionError).
Proof.
  intros key.
  apply (profile_clock_stalled (fun _ => 0%float) (replicate 1001 key)
           (sample_device (map Yield (replicate 1001 key) ++ [Yield key])) [Yield key]
           (sample_sys (map Yield (replicate 1001 key) ++ [Yield key]) [])).
  - reflexivity.
  - reflexivity.
  - apply length_replicate.
  - apply Forall_replicate. intros Hty. discriminate.
  - reflexivity.
Defined.

(** The rounds the loop can still make: the rest of the current window and
    the windows after it. More fuel than that changes nothing, so the
    10010 rounds [profile] is given never cut the loop short. *)
Lemma profile_loop_fuel (now : nat -> float) (n : nat) :
  forall (fuel : nat) (event_total : Z) (start_time : float) (results : list float)
         (tick : nat) (s : Sys),
    0 <= event_total <= 1000 -> (length results <= 9)%nat ->
    n = (Z.to_nat (1001 - event_total) + 1001 * (9 - length results))%nat ->
    (n <= fuel)%nat ->
    profile_loop now fuel event_total start_time results tick s
    = profile_loop now n event_total start_time results tick s.
Proof.
  induction n as [| n IH];
    intros fuel event_total start_time results tick s Het Hres Hn Hfuel; [lia |].
  destruct fuel as [| fuel]; [lia |].
  rewrite !profile_loop_unfold.
  destruct (read_loop s) as [s1 [[btn val] | e |]]; [| done | done].
  destruct (Z.ltb_spec 1000 (event_total + 1)) as [Hlt | Hge].
  - destruct (py_truediv _ _) as [rate | e |]; [| done | done].
    rewrite length_app. simpl length.
    destruct (Nat.ltb_spec 9 (length results + 1)) as [Hl | Hl]; [done |].
    apply IH; [lia | rewrite length_app; simpl; lia | | lia].
    rewrite length_app. simpl length. lia.
  - apply IH; lia.
Qed.

(** ** Search terms *)

Lemma str_in_empty (hay : string) : str_in EmptyString hay = true.
Proof. by destruct hay. Qed.

Lemma filter_empty_term (devs : list InputDevice) :
  List.filter (fun d => str_in (lower EmptyString) (lower (name d))) devs = devs.
Proof.
  induction devs as [| d devs IH]; [done |]. simpl.
  rewrite str_in_empty. f_equal. apply IH.
Qed.

(** X19: the empty search term matches every device, so the lookup then
    goes by the number of devices alone: none gives None, a single one is
    returned whatever its name, two or more raise ValueError. *)
Theorem find_input_device_empty_term (devs : list InputDevice)
    (later : list (list InputDevice)) (s : Sys) :
  scans s = devs :: later ->
  find_input_device (TStr EmptyString) s =
  ({| self := self s; scans := later |},
   match devs with
   | [] => Ok None
   | [d] => Ok (Some d)
   | _ :: _ :: _ => Err ValueError
   end).
Proof.
  intros Hs. rewrite (find_input_device_filter EmptyString devs later s Hs).
  by rewrite filter_empty_term.
Qed.

Lemma find_input_device_empty_term_witness :
  let kbd := {| name := "AT Translated Set 2 keyboard";
                path := "/dev/input/event0"; pending := [] |} in
  find_input_device (TStr EmptyString) (sample_sys [] [[kbd]; [kbd; kbd]])
  = (sample_sys [] [[kbd; kbd]], Ok (Some kbd)).
Proof.
  intros kbd.
  apply (find_input_device_empty_term [kbd] [[kbd; kbd]]
           (sample_sys [] [[kbd]; [kbd; kbd]]) eq_refl).
Defined.

(** X20: the lookup does not see letter case in the search term: two
    terms that differ in case only give the same result on every
    enumeration, and so does [load_device]. *)
Theorem search_term_case (t t' : string) (s : Sys) :
  lower t = lower t' ->
  find_input_device (TStr t) s = find_input_device (TStr t') s
  /\ load_device (TStr t) s = load_device (TStr t') s.
Proof.
  intros Hlow.
  assert (Hfind : forall s0, find_input_device (TStr t) s0 = find_input_device (TStr t') s0).
  { intros s0. unfold find_input_device. destruct (scans s0) as [| devs later]; [done |].
    by rewrite !collect_likely_filter, Hlow. }
  split; [apply Hfind |].
  rewrite !load_device_unfold.
  assert (Hloop : forall fuel s0,
            load_device_loop fuel (TStr t) s0 = load_device_loop fuel (TStr t') s0).
  { induction fuel as [| fuel IH]; intros s0; [done |].
    cbn [load_device_loop]. unfold mbind, M_bind. rewrite Hfind.
    destruct (find_input_device (TStr t') s0) as [s1 [[d |] | e |]]; [done | | done | done].
    apply IH. }
  by rewrite Hloop.
Qed.

Lemma search_term_case_witness :
  lower "NinTENdo" = lower "nintendo"
  /\ find_input_device (TStr "NinTENdo") (sample_sys [] [[sample_device []]])
     = find_input_device (TStr "nintendo") (sample_sys [] [[sample_device []]]).
Proof.
  split; [reflexivity |].
  apply (search_term_case "NinTENdo" "nintendo" (sample_sys [] [[sample_device []]])).
  reflexivity.
Defined.

(** ** Construction by search *)

(** X21: constructed without a device, the controller searches with the
    term it was given, a nonempty argument taking precedence over the
    configuration's term; it retries over the enumerations that show no
    match and returns with the first unique match as its device, the
    button map and [joystick_max_value] (1280 when the configuration has
    none) taken from the configuration, and the control state at its
    initial values. *)
Theorem init_by_search (cfg : Config) (t : string) (verb : bool)
    (misses : list (list InputDevice)) (d : InputDevice) (l1 l2 : list InputDevice)
    (rest : list (list InputDevice)) :
  t <> EmptyString ->
  Forall (Forall (fun x => ~ contains_ci (name x) t)) misses ->
  contains_ci (name d) t ->
  Forall (fun x => ~ contains_ci (name x) t) l1 ->
  Forall (fun x => ~ contains_ci (name x) t) l2 ->
  exists c,
    init None cfg (Some t) verb (misses ++ (l1 ++ d :: l2) :: rest)%list = (rest, Ok c)
    /\ device c = Some d
    /\ device_search_term c = TStr t
    /\ btn_map c = cfg_button_map cfg
    /\ joystick_max_value c = default 1280 (cfg_joystick_max_value cfg)
    /\ controls c = (PyFloat 0, 0%float, "user", true, 1%float)
    /\ state c = ∅.
Proof.
  intros Ht Hmiss Hd H1 H2. rewrite init_unfold.
  assert (Hterm : device_search_term (fresh cfg (Some t) verb) = TStr t)
    by (by destruct t).
  rewrite Hterm.
  rewrite (load_device_loop_found t misses (l1 ++ d :: l2)%list rest d l1 l2);
    [| done | done | done | done | done | done | rewrite length_app; simpl; lia].
  eexists. split; [reflexivity |]. simpl. by destruct t.
Qed.

Lemma init_by_search_witness :
  exists c,
    init None sample_config (Some "wii") false [[]; [sample_device []]; []] = ([[]], Ok c)
    /\ device c = Some (sample_device [])
    /\ device_search_term c = TStr "wii".
Proof.
  destruct (init_by_search sample_config "wii" false [[]] (sample_device []) [] [] [[]])
    as (c & Hinit & Hdev & Hterm & _).
  - discriminate.
  - repeat constructor.
  - by apply str_in_contains_ci.
  - constructor.
  - constructor.
  - exists c. split; [exact Hinit |]. split; [exact Hdev | exact Hterm].
Defined.

(** ** A zero joystick_max_value *)

(** X22: with [joystick_max_value] 0 every EV_ABS event makes the poll
    raise ZeroDivisionError: the exception is not caught by [read_loop],
    the event is used up, and nothing is recorded or applied. Events of
    other types are translated as usual. *)
Theorem poll_zero_max (s : Sys) (dev : InputDevice) (event : RawEvent)
    (later : list ReadOutcome) :
  device (self s) = Some dev -> pending dev = Yield event :: later ->
  joystick_max_value (self s) = 0 ->
  Z.abs (ev_value event) < 2 ^ 53 ->
  (ev_type event = EV_ABS ->
   update_state_from_loop s = (consumed dev later s, Err ZeroDivisionError)
   /\ run s = (consumed dev later s, Err ZeroDivisionError))
  /\ (ev_type event <> EV_ABS ->
      update_state_from_loop s
      = apply_event (btn_map (self s) !! ev_code event) (PyInt (ev_value event))
          (consumed dev later s)).
Proof.
  intros Hdev Hpend Hm Hv. split.
  - intros Hty.
    assert (Hpoll : update_state_from_loop s
                    = (consumed dev later s, Err ZeroDivisionError)).
    { unfold update_state_from_loop, mbind, M_bind.
      by rewrite (read_loop_zero_max s dev event later Hdev Hpend Hty Hv Hm). }
    split; [exact Hpoll |].
    unfold run, mbind, M_bind. by rewrite Hpoll.
  - intros Hty. unfold update_state_from_loop, mbind, M_bind.
    rewrite (read_loop_yield s dev event later Hdev Hpend). cbv zeta.
    by apply Z.eqb_neq in Hty as ->.
Qed.

Lemma poll_zero_max_witness :
  let cfg := {| cfg_button_map := <[1 := "LEFT_STICK_Y"]> ∅;
                cfg_joystick_max_value := Some 0;
                cfg_device_search_term := None |} in
  let event := {| ev_type := EV_ABS; ev_code := 1; ev_value := 640 |} in
  let c := set_device (Some (sample_device [Yield event])) (fresh cfg None false) in
  update_state_from_loop {| self := c; scans := [] |}
  = ({| self := set_device (Some (sample_device [])) c; scans := [] |},
     Err ZeroDivisionError).
Proof.
  intros cfg event c.
  apply (proj1 (poll_zero_max {| self := c; scans := [] |}
                  (sample_device [Yield event]) event [] eq_refl eq_refl eq_refl
                  ltac:(reflexivity)) eq_refl).
Defined.
